(** * SmartBackup: change detection, exclusion, snapshot building, retention

    A shallow embedding of [smartbackup.py] (class [SmartBackup]) and the
    properties of its backup engine.

    Conventions of the embedding.
    - Python [str] is [string]; file contents ([bytes]) are [string] too.
    - A [pathlib.Path] (POSIX flavour) is a record of its anchor and parts;
      [str_of_path] is Python's [str(path)].
    - A [dict] used as a map is a [gmap]; a record read with [.get] is a
      record of optional fields.
    - Methods of [SmartBackup] that mutate [self], log, or touch the
      destination are computations in a state-and-exception monad [M]: an
      uncaught Python exception is the result [Raise], and the state reached
      at the raise is kept.
    - The source file system is read-only during a run and is described by
      the functions of a [filesystem] record ([os.walk], [stat], [open]). *)

From Stdlib Require Import ZArith Ascii String List Permutation Sorted Lia.
From stdpp Require Import base option list sorting gmap strings fin_maps.

Local Open Scope Z_scope.
Local Open Scope string_scope.
#[local] Arguments String.append !_ _ : simpl nomatch.

(** ** Python strings *)

Module PyStr.

(** [s.startswith(p)] *)
Fixpoint startswith (s p : string) {struct p} : bool :=
  match p, s with
  | EmptyString, _ => true
  | String a p', String b s' => if Ascii.eqb a b then startswith s' p' else false
  | String _ _, EmptyString => false
  end.

(** [p in s] for two strings: [p] occurs in [s] as a contiguous run. *)
Fixpoint contains (s p : string) : bool :=
  startswith s p ||
  match s with
  | EmptyString => false
  | String _ s' => contains s' p
  end.

(** [sep.join(l)] *)
Fixpoint join (sep : string) (l : list string) : string :=
  match l with
  | [] => ""
  | [x] => x
  | x :: l' => x ++ sep ++ join sep l'
  end.

(** [s.split(sep)] for a one-character separator: [cur] collects, in
    reverse, the characters of the piece being read. *)
Fixpoint split_aux (sep : ascii) (cur : string) (s : string) : list string :=
  match s with
  | EmptyString => [cur]
  | String c s' =>
      if Ascii.eqb c sep then cur :: split_aux sep "" s'
      else split_aux sep (cur ++ String c "") s'
  end.

Definition split (sep : ascii) (s : string) : list string := split_aux sep "" s.

(** [s.rfind(".")]: the index of the last dot, or [-1]. *)
Fixpoint rfind_dot_from (i : Z) (s : string) : Z :=
  match s with
  | EmptyString => -1
  | String c s' =>
      let r := rfind_dot_from (i + 1) s' in
      if (r >=? 0)%Z then r else if Ascii.eqb c "." then i else -1
  end.

Definition rfind_dot (s : string) : Z := rfind_dot_from 0 s.

Definition len (s : string) : Z := Z.of_nat (String.length s).

(** [s[:i]] for [0 <= i]. *)
Definition take (i : Z) (s : string) : string := String.substring 0 (Z.to_nat i) s.

End PyStr.

(** ** pathlib (PurePosixPath) *)

Record Path := mkPath {
  anchor : string;        (* "", "/" or "//" *)
  parts : list string     (* the components after the anchor *)
}.

(** [str(path)] *)
Definition str_of_path (p : Path) : string :=
  match anchor p, parts p with
  | "", [] => "."
  | a, l => a ++ PyStr.join "/" l
  end.

(** [Path(s)]: an anchor of exactly two slashes is kept, any other run of
    leading slashes is one slash; empty and ["."] components are dropped. *)
Definition parse_anchor (s : string) : string :=
  if PyStr.startswith s "///" then "/"
  else if PyStr.startswith s "//" then "//"
  else if PyStr.startswith s "/" then "/"
  else "".

Definition is_component (c : string) : bool :=
  negb (String.eqb c "") && negb (String.eqb c ".").

Definition Path_of (s : string) : Path :=
  {| anchor := parse_anchor s;
     parts := List.filter is_component (PyStr.split "/" s) |}.

(** [path / q]: an anchored right operand replaces the left one. *)
Definition joinpath (p q : Path) : Path :=
  if String.eqb (anchor q) "" then {| anchor := anchor p; parts := parts p ++ parts q |}
  else q.

(** [path / name] for a directory entry's [name] (one component). *)
Definition child (p : Path) (name : string) : Path :=
  {| anchor := anchor p; parts := parts p ++ [name] |}.

(** [path.name]: the last component, or [""] *)
Definition path_name (p : Path) : string := List.last (parts p) "".

(** [path.relative_to(base)], used only with [path] below [base]. *)
Definition relative_to (p base : Path) : Path :=
  {| anchor := ""; parts := drop (length (parts base)) (parts p) |}.

(** [name.with_suffix(suffix)] on the final component: the old suffix runs
    from the last dot, when that dot is neither first nor last. *)
Definition name_suffix_start (name : string) : option Z :=
  let i := PyStr.rfind_dot name in
  if ((0 <? i) && (i <? PyStr.len name - 1))%Z then Some i else None.

Definition with_suffix (name suffix : string) : string :=
  match name_suffix_start name with
  | Some i => PyStr.take i name ++ suffix
  | None => name ++ suffix
  end.

(** ** Data model *)

(** [@dataclass BackupConfig] *)
Record BackupConfig := mkBackupConfig {
  name : string;
  source_dirs : list string;
  destination : string;
  schedule : string;
  compression : bool;
  incremental : bool;
  exclude_patterns : option (list string);   (* [List[str] = None] *)
  max_backups : Z
}.

(** Scalars of the dicts kept in the change index (and of their JSON form).
    [st_size] is an integer and [st_mtime] a float; Python compares them
    numerically, and the program only tests them for equality, so one
    numeric constructor over [Z] (the time stamp in a fixed unit) serves. *)
Inductive value :=
  | VNum (n : Z)
  | VStr (s : string).

#[global] Instance value_eq_dec : EqDecision value.
Proof. solve_decision. Defined.

(** The record of a file: [{'size': .., 'mtime': .., 'hash': ..}] or [{}]. *)
Abbreviation file_info := (gmap string value).

(** [self.backup_index]: config name -> file path -> record. *)
Abbreviation index := (gmap string (gmap string file_info)).

(** [os.stat_result], the two fields that are read. *)
Record stat_result := mkStat { st_size : Z; st_mtime : Z }.

(** A directory as [os.walk] lists it: the names of its non-directory
    entries, and its sub-directories by name. *)
#[warnings="-register-all"]
Inductive tree :=
  | Dir (files : list string) (subdirs : list (string * tree)).

(** An entry of a destination directory: a snapshot directory with the
    files copied into it (paths relative to the snapshot), or a plain file
    such as an archive. Both carry [st_mtime]. *)
Inductive entry :=
  | EDir (mtime : Z) (content : gset string)
  | EFile (mtime : Z).

#[global] Instance entry_eq_dec : EqDecision entry.
Proof. solve_decision. Defined.

Definition entry_mtime (e : entry) : Z :=
  match e with EDir t _ => t | EFile t => t end.

Definition is_dir (e : entry) : bool :=
  match e with EDir _ _ => true | EFile _ => false end.

(** What the environment answers during a run. The source side is fixed:
    the same question has the same answer throughout. *)
Record filesystem := mkFilesystem {
  (* [os.path.expanduser] of a first component ["~"] or ["~user"] *)
  fs_home : string -> option Path;
  (* the directory tree at a source path, [None] when nothing exists there *)
  fs_tree : string -> option tree;
  (* [path.stat()], [None] when it raises *)
  fs_stat : string -> option stat_result;
  (* the bytes read by [open(path, "rb")], [None] when opening or reading raises *)
  fs_read : string -> option string;
  (* [hashlib.md5(data).hexdigest()] *)
  md5_hexdigest : string -> string;
  (* whether writing the copy of a source file at a destination succeeds *)
  fs_copy_ok : string -> string -> bool;
  (* whether a missing directory can be created *)
  fs_mkdir_ok : string -> bool;
  (* whether [tar -czf] of a snapshot succeeds *)
  fs_tar_ok : string -> bool;
  (* whether a destination entry can be removed *)
  fs_remove_ok : string -> bool;
  (* whether [backup_index.json] can be opened for writing *)
  fs_save_ok : bool
}.

(** The clock read by a run: [datetime.now().strftime('%Y%m%d_%H%M%S')] and
    the modification time given to what the run creates. *)
Record clock := mkClock { strftime : string; time : Z }.

Inductive exn :=
  | FileExistsError
  | PermissionError
  | RuntimeError
  | KeyError
  | OSError
  | CalledProcessError.

(** [self.logger]: one constructor per message of the program. *)
Inductive log_record :=
  | Error_config_not_found (config_name : string)
  | Info_start (config_name : string) (dest_path : string)
  | Warning_source_not_found (source_path : string)
  | Info_source (source_path : string)
  | Error_copy (filepath : string) (e : exn)
  | Info_compress (backup_path : string)
  | Info_compressed (archive_path : string)
  | Error_compress (e : exn)
  | Info_removed (backup : string)
  | Error_remove (backup : string) (e : exn)
  | Info_done (files_backed_up total_size : Z).

(** Operations performed on the destination, in order. *)
Inductive fs_op :=
  | OpMkdir (path : string)
  | OpCopy2 (src dst : string)
  | OpTar (archive_path : string)
  | OpRmtree (path : string)
  | OpUnlink (path : string)
  | OpWriteIndex.

(** The [SmartBackup] object and what it acts on. *)
Record state := mkState {
  configs : gmap string BackupConfig;
  backup_index : index;
  (* the content of backup_index.json *)
  index_file : option index;
  (* destination directories by path, each a listing by entry name *)
  dest_fs : gmap string (gmap string entry);
  logger : list log_record;
  effects : list fs_op;
  (* the counters of the running [create_backup] *)
  files_backed_up : Z;
  total_size : Z
}.

Definition set_backup_index (f : index -> index) (s : state) : state :=
  mkState (configs s) (f (backup_index s)) (index_file s) (dest_fs s) (logger s)
          (effects s) (files_backed_up s) (total_size s).
Definition set_index_file (v : option index) (s : state) : state :=
  mkState (configs s) (backup_index s) v (dest_fs s) (logger s)
          (effects s) (files_backed_up s) (total_size s).
Definition set_dest_fs (f : gmap string (gmap string entry) -> gmap string (gmap string entry))
    (s : state) : state :=
  mkState (configs s) (backup_index s) (index_file s) (f (dest_fs s)) (logger s)
          (effects s) (files_backed_up s) (total_size s).
Definition add_log (r : log_record) (s : state) : state :=
  mkState (configs s) (backup_index s) (index_file s) (dest_fs s) (logger s ++ [r])
          (effects s) (files_backed_up s) (total_size s).
Definition add_effect (o : fs_op) (s : state) : state :=
  mkState (configs s) (backup_index s) (index_file s) (dest_fs s) (logger s)
          (effects s ++ [o]) (files_backed_up s) (total_size s).
Definition set_files_backed_up (f : Z -> Z) (s : state) : state :=
  mkState (configs s) (backup_index s) (index_file s) (dest_fs s) (logger s)
          (effects s) (f (files_backed_up s)) (total_size s).
Definition set_total_size (f : Z -> Z) (s : state) : state :=
  mkState (configs s) (backup_index s) (index_file s) (dest_fs s) (logger s)
          (effects s) (files_backed_up s) (f (total_size s)).

(** ** The monad of methods: state and exceptions *)

Inductive result (A : Type) :=
  | Ok (a : A)
  | Raise (e : exn).
Arguments Ok {A} a.
Arguments Raise {A} e.

Definition M (A : Type) : Type := state -> result A * state.

Definition ret {A} (a : A) : M A := fun s => (Ok a, s).
Definition raise {A} (e : exn) : M A := fun s => (Raise e, s).
Definition bind {A B} (m : M A) (k : A -> M B) : M B :=
  fun s => match m s with
           | (Ok a, s') => k a s'
           | (Raise e, s') => (Raise e, s')
           end.
Definition gets {A} (f : state -> A) : M A := fun s => (Ok (f s), s).
Definition modify (f : state -> state) : M unit := fun s => (Ok tt, f s).

(** [try: m  except Exception as e: h e] *)
Definition try_except {A} (m : M A) (h : exn -> M A) : M A :=
  fun s => match m s with
           | (Ok a, s') => (Ok a, s')
           | (Raise e, s') => h e s'
           end.

Declare Scope method_scope.
Delimit Scope method_scope with method.
Notation "'let*' x ':=' m 'in' k" := (bind m (fun x => k))
  (at level 10, x binder, m at level 100, k at level 200) : method_scope.
Notation "m >> k" := (bind m (fun _ => k))
  (at level 100, k at level 200, right associativity) : method_scope.
Local Open Scope method_scope.

(** [for x in l: body x] *)
Fixpoint for_each {A} (l : list A) (body : A -> M unit) : M unit :=
  match l with
  | [] => ret tt
  | x :: l' => body x >> for_each l' body
  end.

Definition log (r : log_record) : M unit := modify (add_log r).

(** ** Path Filter *)

(** [should_exclude]: [not exclude_patterns] holds for [None] and for the
    empty list; otherwise some pattern occurs in [str(path)]. *)
Definition should_exclude (path : Path) (exclude_patterns : option (list string)) : bool :=
  match exclude_patterns with
  | None => false
  | Some [] => false
  | Some patterns =>
      let path_str := str_of_path path in
      existsb (fun pattern => PyStr.contains path_str pattern) patterns
  end.

(** ** Change Detector *)

(** [calculate_file_hash]: the digest of the bytes read chunk by chunk (the
    chunks concatenate to the content), or [""] when reading raises. *)
Definition calculate_file_hash (fs : filesystem) (filepath : Path) : string :=
  match fs_read fs (str_of_path filepath) with
  | Some data => md5_hexdigest fs data
  | None => ""
  end.

(** [get_file_info] *)
Definition get_file_info (fs : filesystem) (filepath : Path) : file_info :=
  match fs_stat fs (str_of_path filepath) with
  | Some stat =>
      <["size" := VNum (st_size stat)]>
        (<["mtime" := VNum (st_mtime stat)]>
          (<["hash" := VStr (calculate_file_hash fs filepath)]> ∅))
  | None => ∅
  end.

(** Python's [a != b] on the results of [dict.get]. *)
Definition py_ne (a b : option value) : bool := bool_decide (a ≠ b).

(** [should_backup_file] *)
Definition should_backup_file (fs : filesystem) (backup_index : index)
    (filepath : Path) (config_name : string) : bool :=
  let file_key := str_of_path filepath in
  let config_index := default ∅ (backup_index !! config_name) in
  match config_index !! file_key with
  | None => true
  | Some stored_info =>
      let current_info := get_file_info fs filepath in
      py_ne (current_info !! "hash") (stored_info !! "hash")
      || py_ne (current_info !! "mtime") (stored_info !! "mtime")
  end.

(** ** Tree walk *)

(** [os.walk(top)], top-down: the triple of a directory, then the walks of
    its sub-directories in order. [Path(root)] of a yielded [root] is the
    top path extended by the names on the way down. *)
Fixpoint walk (root : Path) (t : tree) : list (Path * list string * list string) :=
  match t with
  | Dir files subdirs =>
      (root, map fst subdirs, files)
      :: (fix walk_subdirs (l : list (string * tree)) :=
            match l with
            | [] => []
            | (d, t') :: l' => (walk (child root d) t' ++ walk_subdirs l')%list
            end) subdirs
  end.

(** [path.parent] *)
Definition path_parent (p : Path) : Path :=
  {| anchor := anchor p; parts := removelast (parts p) |}.

(** [Path.expanduser]: a relative path whose first component starts with
    ["~"] has it replaced by the home directory; [None] stands for the
    [RuntimeError] raised when no home directory is found. *)
Definition expanduser (fs : filesystem) (p : Path) : option Path :=
  match anchor p, parts p with
  | "", first :: rest =>
      if PyStr.startswith first "~" then
        match fs_home fs first with
        | Some home => Some {| anchor := anchor home; parts := parts home ++ rest |}
        | None => None
        end
      else Some p
  | _, _ => Some p
  end.

(** ** Snapshot Builder *)

(** The listing of a destination directory, empty when it does not exist. *)
Definition listing (s : state) (dir : string) : gmap string entry :=
  default ∅ (dest_fs s !! dir).

(** [dest_path.mkdir(parents=True, exist_ok=True)] for the snapshot root: an
    existing directory is accepted as it is. *)
Definition mkdir_snapshot (fs : filesystem) (clk : clock) (dest_path : Path) : M unit :=
  let dir := str_of_path (path_parent dest_path) in
  let* l := gets (fun s => listing s dir) in
  match l !! path_name dest_path with
  | Some (EDir _ _) => ret tt
  | Some (EFile _) => raise FileExistsError
  | None =>
      if fs_mkdir_ok fs (str_of_path dest_path) then
        modify (set_dest_fs (insert dir (<[path_name dest_path := EDir (time clk) ∅]> l))) >>
        modify (add_effect (OpMkdir (str_of_path dest_path)))
      else raise PermissionError
  end.

(** [dest_file_path.parent.mkdir(parents=True, exist_ok=True)] inside the
    snapshot. *)
Definition mkdir_parents (fs : filesystem) (dir : Path) : M unit :=
  if fs_mkdir_ok fs (str_of_path dir) then ret tt else raise PermissionError.

Definition add_to_snapshot (clk : clock) (rel : string) (e : entry) : entry :=
  match e with
  | EDir _ content => EDir (time clk) ({[ rel ]} ∪ content)
  | EFile t => EFile t
  end.

(** [shutil.copy2(filepath, dest_file_path)]: the source is read and
    stat'ed, the copy is written under the snapshot [dest_path]. *)
Definition copy2 (fs : filesystem) (clk : clock) (dest_path filepath dest_file_path : Path)
    : M unit :=
  match fs_read fs (str_of_path filepath), fs_stat fs (str_of_path filepath) with
  | Some _, Some _ =>
      if fs_copy_ok fs (str_of_path filepath) (str_of_path dest_file_path) then
        let dir := str_of_path (path_parent dest_path) in
        let rel := str_of_path (relative_to dest_file_path dest_path) in
        modify (set_dest_fs (alter (alter (add_to_snapshot clk rel) (path_name dest_path)) dir)) >>
        modify (add_effect (OpCopy2 (str_of_path filepath) (str_of_path dest_file_path)))
      else raise OSError
  | _, _ => raise PermissionError
  end.

(** [filepath.stat()] where a failure is not caught by the callee. *)
Definition stat (fs : filesystem) (filepath : Path) : M stat_result :=
  match fs_stat fs (str_of_path filepath) with
  | Some st => ret st
  | None => raise OSError
  end.

(** [self.backup_index[config_name][key] = info] *)
Definition index_store (config_name key : string) (info : file_info) : M unit :=
  let* idx := gets backup_index in
  match idx !! config_name with
  | Some config_index =>
      modify (set_backup_index (insert config_name (<[key := info]> config_index)))
  | None => raise KeyError
  end.

(** [dest_path / source_path.name / filepath.relative_to(source_path)] *)
Definition dest_file_path_of (source_path dest_path filepath : Path) : Path :=
  let rel_path := relative_to filepath source_path in
  joinpath (joinpath dest_path (Path_of (path_name source_path))) rel_path.

(** The test [config.incremental and not self.should_backup_file(..)] that
    makes the loop pass over a file. *)
Definition skip_unchanged (fs : filesystem) (config : BackupConfig) (backup_index : index)
    (filepath : Path) (config_name : string) : bool :=
  incremental config && negb (should_backup_file fs backup_index filepath config_name).

(** The body of [for file in files] in [create_backup]. *)
Definition backup_file (fs : filesystem) (clk : clock) (config : BackupConfig)
    (config_name : string) (source_path dest_path root_path : Path) (file : string) : M unit :=
  let filepath := child root_path file in
  if should_exclude filepath (exclude_patterns config) then ret tt
  else
    let* idx := gets backup_index in
    if skip_unchanged fs config idx filepath config_name then ret tt
    else
      let dest_file_path := dest_file_path_of source_path dest_path filepath in
      mkdir_parents fs (path_parent dest_file_path) >>
      try_except
        (copy2 fs clk dest_path filepath dest_file_path >>
         modify (set_files_backed_up (fun n => n + 1)) >>
         (let* st := stat fs filepath in
          modify (set_total_size (fun n => n + st_size st))) >>
         index_store config_name (str_of_path filepath) (get_file_info fs filepath))
        (fun e => log (Error_copy (str_of_path filepath) e)).

(** The body of [for root, dirs, files in os.walk(source_path)]. *)
Definition backup_dir (fs : filesystem) (clk : clock) (config : BackupConfig)
    (config_name : string) (source_path dest_path : Path)
    (step : Path * list string * list string) : M unit :=
  let '(root_path, _, files) := step in
  if should_exclude root_path (exclude_patterns config) then ret tt
  else for_each files (backup_file fs clk config config_name source_path dest_path root_path).

(** The body of [for source_dir in config.source_dirs]. *)
Definition backup_source (fs : filesystem) (clk : clock) (config : BackupConfig)
    (config_name : string) (dest_path : Path) (source_dir : string) : M unit :=
  match expanduser fs (Path_of source_dir) with
  | None => raise RuntimeError
  | Some source_path =>
      match fs_tree fs (str_of_path source_path) with
      | None => log (Warning_source_not_found (str_of_path source_path))
      | Some t =>
          log (Info_source (str_of_path source_path)) >>
          for_each (walk source_path t)
            (backup_dir fs clk config config_name source_path dest_path)
      end
  end.

(** ** Archiver *)

(** [shutil.rmtree(path)] and [path.unlink()] on an entry of a destination
    directory. *)
Definition remove_entry (fs : filesystem) (op : string -> fs_op) (path : Path) : M unit :=
  if fs_remove_ok fs (str_of_path path) then
    modify (set_dest_fs (alter (delete (path_name path)) (str_of_path (path_parent path)))) >>
    modify (add_effect (op (str_of_path path)))
  else raise OSError.

Definition rmtree (fs : filesystem) (path : Path) : M unit :=
  remove_entry fs OpRmtree path.
Definition unlink (fs : filesystem) (path : Path) : M unit :=
  remove_entry fs OpUnlink path.

(** [compress_backup] *)
Definition compress_backup (fs : filesystem) (clk : clock) (backup_path : Path) : M unit :=
  log (Info_compress (str_of_path backup_path)) >>
  try_except
    (let dir := str_of_path (path_parent backup_path) in
     let archive_name := with_suffix (path_name backup_path) ".tar.gz" in
     let archive_path := str_of_path (child (path_parent backup_path) archive_name) in
     (if fs_tar_ok fs (str_of_path backup_path) then
        modify (set_dest_fs (alter (insert archive_name (EFile (time clk))) dir)) >>
        modify (add_effect (OpTar archive_path))
      else raise CalledProcessError) >>
     rmtree fs backup_path >>
     log (Info_compressed archive_path))
    (fun e => log (Error_compress e)).

(** ** Retention Manager *)

(** [backups.sort(key=lambda x: x.stat().st_mtime, reverse=True)]: the
    sort is stable, also with [reverse=True]; insertion keeps an element
    after those strictly newer and before the others. *)
Fixpoint insert_by_mtime (x : string * entry) (l : list (string * entry))
    : list (string * entry) :=
  match l with
  | [] => [x]
  | y :: l' =>
      if (entry_mtime (snd x) <? entry_mtime (snd y))%Z then y :: insert_by_mtime x l'
      else x :: y :: l'
  end.

Definition sort_by_mtime_desc (l : list (string * entry)) : list (string * entry) :=
  foldr insert_by_mtime [] l.

(** [l[i:]] *)
Definition slice_from {A} (i : Z) (l : list A) : list A :=
  if (i <? 0)%Z then drop (Z.to_nat (Z.max 0 (Z.of_nat (length l) + i))) l
  else drop (Z.to_nat i) l.

(** The snapshots of a configuration in a listing, in [iterdir] order. *)
Definition backups_of (config : BackupConfig) (l : gmap string entry) : list (string * entry) :=
  List.filter (fun item => PyStr.startswith (fst item) (name config ++ "_")) (map_to_list l).

(** The body of [for backup in backups[config.max_backups:]]. *)
Definition remove_backup (fs : filesystem) (dest_dir : Path) (item : string * entry) : M unit :=
  let backup := child dest_dir (fst item) in
  try_except
    ((if is_dir (snd item) then rmtree fs backup else unlink fs backup) >>
     log (Info_removed (str_of_path backup)))
    (fun e => log (Error_remove (str_of_path backup) e)).

(** [cleanup_old_backups] *)
Definition cleanup_old_backups (fs : filesystem) (config : BackupConfig) : M unit :=
  let dest_dir := Path_of (destination config) in
  let* dfs := gets dest_fs in
  match dfs !! str_of_path dest_dir with
  | None => ret tt
  | Some l =>
      let backups := sort_by_mtime_desc (backups_of config l) in
      if (Z.of_nat (length backups) >? max_backups config)%Z then
        for_each (slice_from (max_backups config) backups) (remove_backup fs dest_dir)
      else ret tt
  end.

(** ** Persistence and the run *)

(** [save_backup_index] *)
Definition save_backup_index (fs : filesystem) : M unit :=
  if fs_save_ok fs then
    modify (fun s => set_index_file (Some (backup_index s)) s) >>
    modify (add_effect OpWriteIndex)
  else raise PermissionError.

(** [if config_name not in self.backup_index: self.backup_index[config_name] = {}] *)
Definition prepare_index (config_name : string) : M unit :=
  let* idx := gets backup_index in
  match idx !! config_name with
  | Some _ => ret tt
  | None => modify (set_backup_index (insert config_name ∅))
  end.

(** [dest_path] in [create_backup]: the destination joined with
    [f"{config_name}_{timestamp}"]. *)
Definition snapshot_path (config : BackupConfig) (config_name : string) (clk : clock) : Path :=
  joinpath (Path_of (destination config)) (Path_of (config_name ++ "_" ++ strftime clk)).

(** [create_backup] *)
Definition create_backup (fs : filesystem) (clk : clock) (config_name : string) : M bool :=
  let* cfgs := gets configs in
  match cfgs !! config_name with
  | None => log (Error_config_not_found config_name) >> ret false
  | Some config =>
      let dest_path := snapshot_path config config_name clk in
      mkdir_snapshot fs clk dest_path >>
      log (Info_start config_name (str_of_path dest_path)) >>
      modify (set_files_backed_up (fun _ => 0)) >>
      modify (set_total_size (fun _ => 0)) >>
      prepare_index config_name >>
      for_each (source_dirs config) (backup_source fs clk config config_name dest_path) >>
      (if compression config then compress_backup fs clk dest_path else ret tt) >>
      cleanup_old_backups fs config >>
      save_backup_index fs >>
      (let* n := gets files_backed_up in
       let* sz := gets total_size in
       log (Info_done n sz)) >>
      ret true
  end.

(** ** Notions used in the statements *)

(** [descend d names] is [d / n1 / ... / nk]: where a walk started at [d]
    arrives by entering [n1], ..., [nk]. *)
Definition descend (d : Path) (names : list string) : Path :=
  foldl child d names.

(** The path that [str] prints as ["."], with which nothing is printed for
    the directory itself in the paths below it. *)
Definition is_cwd (d : Path) : bool :=
  match anchor d, parts d with
  | "", [] => true
  | _, _ => false
  end.

(** The source files copied so far, with where to, and the files whose copy
    was reported as failed. *)
Definition copies (s : state) : list (string * string) :=
  omap (fun o => match o with OpCopy2 src dst => Some (src, dst) | _ => None end) (effects s).

Definition copy_errors (s : state) : list string :=
  omap (fun r => match r with Error_copy p _ => Some p | _ => None end) (logger s).

(** [shutil.copy2] succeeds when the source can be read and stat'ed and the
    copy can be written. *)
Definition copy_ok (fs : filesystem) (filepath dest_file_path : Path) : bool :=
  match fs_read fs (str_of_path filepath), fs_stat fs (str_of_path filepath) with
  | Some _, Some _ => fs_copy_ok fs (str_of_path filepath) (str_of_path dest_file_path)
  | _, _ => false
  end.


(** A copy as it appears in [copies], for a file [v.2] found under the
    source directory [v.1]. *)
Definition copy_of (dest_path : Path) (v : Path * Path) : string * string :=
  (str_of_path v.2, str_of_path (dest_file_path_of v.1 dest_path v.2)).

(** A file the loop went on to copy, with the outcome [ok] of the copy: it
    is not excluded and, by the index the loop started with, not to be
    passed over. *)
Definition attempted (fs : filesystem) (config : BackupConfig) (config_name : string)
    (dest_path : Path) (idx0 : index) (ok : bool) (v : Path * Path) : Prop :=
  should_exclude v.2 (exclude_patterns config) = false
  /\ skip_unchanged fs config idx0 v.2 config_name = false
  /\ copy_ok fs v.2 (dest_file_path_of v.1 dest_path v.2) = ok.

(** What holds, at any point of the loops of [create_backup] that started in
    [s0], of the state [s]: the copies made since ([new]), the failures
    reported since ([errs]), the counter, and the index, which differs from
    the initial one in the fresh records of the copied files only. *)
Definition run_inv (fs : filesystem) (config : BackupConfig) (config_name : string)
    (dest_path : Path) (s0 s : state) : Prop :=
  exists (new errs : list (Path * Path)) (ci0 ci : gmap string file_info),
    configs s = configs s0
    /\ copies s = (copies s0 ++ map (copy_of dest_path) new)%list
    /\ copy_errors s = (copy_errors s0 ++ map (fun v => str_of_path v.2) errs)%list
    /\ files_backed_up s = files_backed_up s0 + Z.of_nat (length new)
    /\ Forall (attempted fs config config_name dest_path (backup_index s0) true) new
    /\ Forall (attempted fs config config_name dest_path (backup_index s0) false) errs
    /\ (forall c, c <> config_name -> backup_index s !! c = backup_index s0 !! c)
    /\ backup_index s0 !! config_name = Some ci0
    /\ backup_index s !! config_name = Some ci
    /\ (forall key, key ∉ map (fun v => str_of_path v.2) new -> ci !! key = ci0 !! key)
    /\ (forall v, v ∈ new -> ci !! str_of_path v.2 = Some (get_file_info fs v.2)).

(** The files the loops of [create_backup] reach and do not exclude:
    [filepath] is listed in a directory of the walk of the source directory
    [source_path], and neither that directory nor the file matches an
    exclude pattern. *)
Definition visited (fs : filesystem) (config : BackupConfig)
    (source_path filepath : Path) : Prop :=
  exists source_dir t root_path dirs files file,
    source_dir ∈ source_dirs config
    /\ expanduser fs (Path_of source_dir) = Some source_path
    /\ fs_tree fs (str_of_path source_path) = Some t
    /\ (root_path, dirs, files) ∈ walk source_path t
    /\ should_exclude root_path (exclude_patterns config) = false
    /\ file ∈ files
    /\ filepath = child root_path file
    /\ should_exclude filepath (exclude_patterns config) = false.

(** Two states that agree on what the loops of [create_backup] read and
    write: configurations, index, copies made, copy failures logged, and
    the counter of files. *)
Definition same_view (s s' : state) : Prop :=
  configs s' = configs s
  /\ backup_index s' = backup_index s
  /\ copies s' = copies s
  /\ copy_errors s' = copy_errors s
  /\ files_backed_up s' = files_backed_up s.

(** A method that leaves that view as it is, however it ends. *)
Definition quiet {A} (m : M A) : Prop := forall s, same_view s (m s).2.

(** Whether [mkdir(parents=True, exist_ok=True)] of the snapshot root goes
    through: an existing directory is accepted, a plain file of that name is
    in the way, and a missing directory has to be created. *)
Definition can_make_snapshot (fs : filesystem) (s : state) (dest_path : Path) : bool :=
  match listing s (str_of_path (path_parent dest_path)) !! path_name dest_path with
  | Some (EDir _ _) => true
  | Some (EFile _) => false
  | None => fs_mkdir_ok fs (str_of_path dest_path)
  end.

(** The index after [create_backup] has made sure that the configuration
    has an entry in it. *)
Definition prepared (config_name : string) (idx : index) : index :=
  match idx !! config_name with
  | Some _ => idx
  | None => <[config_name := ∅]> idx
  end.

(** The loop [for source_dir in config.source_dirs] of [create_backup]. *)
Definition run_loops (fs : filesystem) (clk : clock) (config : BackupConfig)
    (config_name : string) : M unit :=
  for_each (source_dirs config)
    (backup_source fs clk config config_name (snapshot_path config config_name clk)).

(** The record of a file under a configuration, if any. *)
Definition index_lookup (idx : index) (config_name key : string) : option file_info :=
  match idx !! config_name with
  | Some config_index => config_index !! key
  | None => None
  end.

(** The copies made between a state [s] and a later state [s']. *)
Definition new_copies (s s' : state) : list (string * string) :=
  drop (length (copies s)) (copies s').

(** The copy failures logged between a state [s] and a later state [s']. *)
Definition new_copy_errors (s s' : state) : list string :=
  drop (length (copy_errors s)) (copy_errors s').

(** ** Concrete runs *)

(** A clock reading. *)
Definition clk0 : clock := {| strftime := "20240101_000000"; time := 1000 |}.

(** An environment in which everything on the destination side succeeds;
    the digest is a stand-in that is injective on contents. *)
Definition fs_of (tree_at : string -> option tree) (stat_at : string -> option stat_result)
    (read_at : string -> option string) : filesystem :=
  {| fs_home := fun _ => None;
     fs_tree := tree_at;
     fs_stat := stat_at;
     fs_read := read_at;
     md5_hexdigest := fun data => "md5:" ++ data;
     fs_copy_ok := fun _ _ => true;
     fs_mkdir_ok := fun _ => true;
     fs_tar_ok := fun _ => true;
     fs_remove_ok := fun _ => true;
     fs_save_ok := true |}.

Definition state_of (cfgs : gmap string BackupConfig) (idx : index)
    (dfs : gmap string (gmap string entry)) : state :=
  {| configs := cfgs; backup_index := idx; index_file := None; dest_fs := dfs;
     logger := []; effects := []; files_backed_up := 0; total_size := 0 |}.

(** The current directory as the source, holding [notes] and the
    directory [a] with the file [README]; the pattern ["."] is excluded. *)
Definition fs_dot : filesystem :=
  fs_of (fun p => if String.eqb p "." then Some (Dir ["notes"] [("a", Dir ["README"] [])])
                  else None)
        (fun _ => Some {| st_size := 5; st_mtime := 100 |})
        (fun p => Some ("content of " ++ p)).

Definition cfg_dot : BackupConfig :=
  {| name := "docs"; source_dirs := ["."]; destination := "/bak"; schedule := "0 2 * * *";
     compression := false; incremental := true; exclude_patterns := Some ["."];
     max_backups := 10 |}.

Definition st_dot : state := state_of {[ "docs" := cfg_dot ]} ∅ ∅.

(** A source directory [/src] with two files, an excluded cache directory
    and a sub-directory; [/src/b.txt] cannot be read. *)
Definition fs_docs : filesystem :=
  fs_of (fun p => if String.eqb p "/src" then
                    Some (Dir ["a.txt"; "b.txt"]
                              [("cache", Dir ["tmp.bin"] [("deep", Dir ["x.bin"] [])]);
                               ("sub", Dir ["c.txt"] [])])
                  else None)
        (fun _ => Some {| st_size := 10; st_mtime := 100 |})
        (fun p => if String.eqb p "/src/b.txt" then None else Some ("content of " ++ p)).

Definition cfg_docs : BackupConfig :=
  {| name := "docs"; source_dirs := ["/src"]; destination := "/bak";
     schedule := "0 2 * * *"; compression := true; incremental := true;
     exclude_patterns := Some ["cache"]; max_backups := 3 |}.

Definition st_docs : state := state_of {[ "docs" := cfg_docs ]} ∅ ∅.

(** A record for [/src/a.txt] with the fingerprint and modification time
    that [fs_docs] gives the file, and another size. *)
Definition info_other_size : file_info :=
  <["size" := VNum 999]>
    (<["mtime" := VNum 100]> (<["hash" := VStr "md5:content of /src/a.txt"]> ∅)).

Definition idx_other_size : index := {[ "docs" := {[ "/src/a.txt" := info_other_size ]} ]}.

(** [cfg_docs] with the empty string among its exclude patterns. *)
Definition cfg_empty_pattern : BackupConfig :=
  {| name := "docs"; source_dirs := ["/src"]; destination := "/bak";
     schedule := "0 2 * * *"; compression := true; incremental := true;
     exclude_patterns := Some ["cache"; ""]; max_backups := 3 |}.

Definition st_empty_pattern : state := state_of {[ "docs" := cfg_empty_pattern ]} ∅ ∅.



(** [cfg_docs] without compression, and a destination that already holds
    a directory with the name of the snapshot of [clk0], with a file in it. *)
Definition cfg_plain : BackupConfig :=
  {| name := "docs"; source_dirs := ["/src"]; destination := "/bak";
     schedule := "0 2 * * *"; compression := false; incremental := true;
     exclude_patterns := Some ["cache"]; max_backups := 3 |}.

Definition st_same_second : state :=
  state_of {[ "docs" := cfg_plain ]} ∅
    {[ "/bak" := {[ "docs_20240101_000000" := EDir 900 {[ "old/unrelated.txt" ]} ]} ]}.

(** ** Notions for retention *)

(** [x] was modified no earlier than [y]. *)
Definition not_older (x y : string * entry) : Prop :=
  (entry_mtime y.2 <= entry_mtime x.2)%Z.

(** The operation that [cleanup_old_backups] uses on an entry. *)
Definition removal_op (dest_dir : Path) (item : string * entry) : fs_op :=
  if is_dir item.2 then OpRmtree (str_of_path (child dest_dir item.1))
  else OpUnlink (str_of_path (child dest_dir item.1)).

(** A listing after the removal of the entries [items]. *)
Definition without (items : list (string * entry)) (l : gmap string entry) : gmap string entry :=
  foldl (fun acc item => delete item.1 acc) l items.

(** A destination that holds five snapshots of [docs], a newer archive,
    two snapshots of the backup set [docs_extra], and a file of no backup
    set. *)
Definition bak_listing : gmap string entry :=
  {[ "docs_20240101_000000" := EDir 100 ∅;
     "docs_20240102_000000.tar.gz" := EFile 200;
     "docs_20240103_000000" := EDir 300 ∅;
     "docs_20240104_000000.tar.gz" := EFile 400;
     "docs_20240105_000000" := EDir 500 ∅;
     "docs_20240106_000000.tar.gz" := EFile 600;
     "docs_extra_20230101_000000" := EDir 10 ∅;
     "docs_extra_20230102_000000" := EDir 20 ∅;
     "notes.txt" := EFile 5 ]}.

Definition st_bak : state := state_of {[ "docs" := cfg_docs ]} ∅ {[ "/bak" := bak_listing ]}.

(** Nothing fails on the destination side of a run: the snapshot directory
    and the directories below it can be made, the home directories of the
    sources are found, and the index can be saved. *)
Definition destination_sound (fs : filesystem) (clk : clock) (config : BackupConfig)
    (config_name : string) (s : state) : Prop :=
  can_make_snapshot fs s (snapshot_path config config_name clk) = true
  /\ (forall d, fs_mkdir_ok fs d = true)
  /\ (forall source_dir, source_dir ∈ source_dirs config ->
        is_Some (expanduser fs (Path_of source_dir)))
  /\ fs_save_ok fs = true.

(** Ten files of which [/data/f3] cannot be read. *)
Definition fs_ten : filesystem :=
  fs_of (fun p => if String.eqb p "/data" then
                    Some (Dir ["f0"; "f1"; "f2"; "f3"; "f4"; "f5"; "f6"; "f7"; "f8"; "f9"] [])
                  else None)
        (fun _ => Some {| st_size := 1; st_mtime := 7 |})
        (fun p => if String.eqb p "/data/f3" then None else Some p).

Definition cfg_ten : BackupConfig :=
  {| name := "ten"; source_dirs := ["/data"]; destination := "/bak";
     schedule := "0 2 * * *"; compression := false; incremental := true;
     exclude_patterns := None; max_backups := 10 |}.

Definition st_ten : state := state_of {[ "ten" := cfg_ten ]} ∅ ∅.

(** A file on which a further round would do nothing: it is passed over as
    unchanged, or its copy fails wherever it is written. *)
Definition at_rest (fs : filesystem) (config : BackupConfig) (config_name : string)
    (idx : index) (filepath : Path) : Prop :=
  skip_unchanged fs config idx filepath config_name = true
  \/ forall d, copy_ok fs filepath d = false.

(** Whether the copy of a file succeeds does not depend on the snapshot it
    is written to. *)
Definition copy_outcome_stable (fs : filesystem) : Prop :=
  forall src dst dst', fs_copy_ok fs src dst = fs_copy_ok fs src dst'.

(** [/src] with a file, then the directories [sub] and [later] with one
    file each. Every file can be read, and everything succeeds on the
    destination side except making the directory for the copies of [sub]. *)
Definition fs_blocked : filesystem :=
  {| fs_home := fun _ => None;
     fs_tree := fun p => if String.eqb p "/src" then
                           Some (Dir ["a.txt"]
                                     [("sub", Dir ["c.txt"] []); ("later", Dir ["d.txt"] [])])
                         else None;
     fs_stat := fun _ => Some {| st_size := 10; st_mtime := 100 |};
     fs_read := fun p => Some ("content of " ++ p);
     md5_hexdigest := fun data => "md5:" ++ data;
     fs_copy_ok := fun _ _ => true;
     fs_mkdir_ok := fun d => negb (String.eqb d "/bak/docs_20240101_000000/src/sub");
     fs_tar_ok := fun _ => true;
     fs_remove_ok := fun _ => true;
     fs_save_ok := true |}.

(** ** Further concrete data *)

(** [fs_docs] after [touch /src/a.txt]: the same bytes, a later
    modification time. *)
Definition fs_touched : filesystem :=
  fs_of (fs_tree fs_docs)
        (fun p => if String.eqb p "/src/a.txt" then Some {| st_size := 10; st_mtime := 101 |}
                  else fs_stat fs_docs p)
        (fs_read fs_docs).

(** The index that holds the record of [/src/a.txt] as [fs_docs] has it. *)
Definition idx_a_recorded : index :=
  {[ "docs" := {[ "/src/a.txt" := get_file_info fs_docs (Path_of "/src/a.txt") ]} ]}.

(** [cfg_docs] in full mode, and an index that already holds the current
    record of [/src/a.txt]. *)
Definition cfg_full : BackupConfig :=
  {| name := "docs"; source_dirs := ["/src"]; destination := "/bak";
     schedule := "0 2 * * *"; compression := true; incremental := false;
     exclude_patterns := Some ["cache"]; max_backups := 3 |}.

Definition st_full : state := state_of {[ "docs" := cfg_full ]} idx_a_recorded ∅.





(** Two source directories with the same name, [/a/data] and [/b/data],
    each holding a file [x.txt]. *)
Definition fs_twins : filesystem :=
  fs_of (fun p => if String.eqb p "/a/data" then Some (Dir ["x.txt"] [])
                  else if String.eqb p "/b/data" then Some (Dir ["x.txt"] [])
                  else None)
        (fun _ => Some {| st_size := 10; st_mtime := 100 |})
        (fun p => Some ("content of " ++ p)).

Definition cfg_twins : BackupConfig :=
  {| name := "docs"; source_dirs := ["/a/data"; "/b/data"]; destination := "/bak";
     schedule := "0 2 * * *"; compression := false; incremental := true;
     exclude_patterns := None; max_backups := 10 |}.

Definition st_twins : state := state_of {[ "docs" := cfg_twins ]} ∅ ∅.

(** ** Scheduler registration *)

(** What [install_cron] sees of its environment: [sys.executable], the
    absolute path of the script, the outcome of [crontab -l] (return code
    and standard output, [None] when the command cannot be run), and
    whether [crontab] accepts the table it is given. *)
Record cron_env := mkCronEnv {
  sys_executable : string;
  script_path : string;
  crontab_list : option (Z * string);
  crontab_write_ok : bool
}.

(** The messages of [install_cron]. *)
Inductive cron_record :=
  | Cron_config_not_found (config_name : string)
  | Cron_installed (config_name : string)
  | Cron_present (config_name : string)
  | Cron_error (e : exn).

(** The value returned, the table handed to [crontab] if any, and the
    message logged. *)
Record cron_outcome := mkCronOutcome {
  cron_result : bool;
  cron_written : option string;
  cron_logged : cron_record
}.

Definition newline : string := String (Ascii.ascii_of_nat 10) "".

(** [f"{config.schedule} {sys.executable} {script_path} backup {config_name}"] *)
Definition cron_line (env : cron_env) (config : BackupConfig) (config_name : string) : string :=
  schedule config ++ " " ++ sys_executable env ++ " " ++ script_path env
  ++ " backup " ++ config_name.

(** [install_cron] *)
Definition install_cron (env : cron_env) (cfgs : gmap string BackupConfig)
    (config_name : string) : cron_outcome :=
  match cfgs !! config_name with
  | None => mkCronOutcome false None (Cron_config_not_found config_name)
  | Some config =>
      let line := cron_line env config config_name in
      match crontab_list env with
      | None => mkCronOutcome false None (Cron_error OSError)
      | Some (returncode, stdout) =>
          let current_crontab := if (returncode =? 0)%Z then stdout else "" in
          if negb (PyStr.contains current_crontab line) then
            let new_crontab := current_crontab ++ line ++ newline in
            if crontab_write_ok env then
              mkCronOutcome true (Some new_crontab) (Cron_installed config_name)
            else mkCronOutcome false None (Cron_error CalledProcessError)
          else mkCronOutcome true None (Cron_present config_name)
      end
  end.

(** The environment after [crontab] has taken a table. *)
Definition with_crontab (env : cron_env) (table : string) : cron_env :=
  mkCronEnv (sys_executable env) (script_path env) (Some (0, table)) (crontab_write_ok env).

Definition env0 : cron_env :=
  mkCronEnv "/usr/bin/python3" "/opt/smartbackup.py" (Some (1, "")) true.

(** Two backup sets with the same schedule, the name of one a prefix of
    the name of the other. *)
Definition cfg_docs_extra : BackupConfig :=
  {| name := "docs_extra"; source_dirs := ["/extra"]; destination := "/bak";
     schedule := "0 2 * * *"; compression := true; incremental := true;
     exclude_patterns := None; max_backups := 3 |}.

Definition cfgs_two : gmap string BackupConfig :=
  {[ "docs" := cfg_docs; "docs_extra" := cfg_docs_extra ]}.


(** * Properties *)

(** ** Strings and paths *)

Example str_of_path_ex1 : str_of_path (Path_of "/home//u/./docs/") = "/home/u/docs".
Proof. reflexivity. Qed.
Example str_of_path_ex2 : str_of_path (Path_of "./a") = "a".
Proof. reflexivity. Qed.
Example str_of_path_ex3 : str_of_path (child (Path_of ".") "a") = "a".
Proof. reflexivity. Qed.
Example str_of_path_ex4 : str_of_path (child (Path_of "/") "a") = "/a".
Proof. reflexivity. Qed.
Example with_suffix_ex1 : with_suffix "docs_20240101_120000" ".tar.gz" = "docs_20240101_120000.tar.gz".
Proof. reflexivity. Qed.
Example with_suffix_ex2 : with_suffix "my.docs_20240101_120000" ".tar.gz" = "my.tar.gz".
Proof. reflexivity. Qed.

Section strings.

Lemma startswith_nil s : PyStr.startswith s "" = true.
Proof. by destruct s. Qed.

Lemma startswith_app s t p :
  PyStr.startswith s p = true -> PyStr.startswith (s ++ t) p = true.
Proof.
  revert s. induction p as [|a p' IH]; intros [|b s']; simpl; try done.
  destruct (Ascii.eqb a b); [apply IH | done].
Qed.

Lemma contains_nil s : PyStr.contains s "" = true.
Proof. by destruct s. Qed.

Lemma contains_app_l s t p :
  PyStr.contains s p = true -> PyStr.contains (s ++ t) p = true.
Proof.
  induction s as [|c s' IH]; simpl.
  - rewrite orb_false_r. destruct p; [intros _; apply contains_nil | done].
  - intros [H|H]%orb_true_iff; apply orb_true_iff.
    + left. by apply (startswith_app (String c s') t p).
    + right. by apply IH.
Qed.

Lemma contains_app_r s t p :
  PyStr.contains t p = true -> PyStr.contains (s ++ t) p = true.
Proof.
  intros H. induction s as [|a s' IH]; simpl; [done|].
  apply orb_true_iff. by right.
Qed.

Lemma append_assoc (s t u : string) : (s ++ t) ++ u = s ++ (t ++ u).
Proof. induction s as [|a s' IH]; simpl; [done | by rewrite IH]. Qed.

Lemma join_app_cons sep l x l' :
  l <> [] ->
  PyStr.join sep (l ++ x :: l') = PyStr.join sep l ++ sep ++ PyStr.join sep (x :: l').
Proof.
  induction l as [|y l0 IH]; [done|]. intros _.
  destruct l0 as [|z l].
  - reflexivity.
  - change (PyStr.join sep ((y :: z :: l) ++ x :: l'))
      with (y ++ sep ++ PyStr.join sep ((z :: l) ++ x :: l')).
    rewrite IH by done.
    change (PyStr.join sep (y :: z :: l)) with (y ++ sep ++ PyStr.join sep (z :: l)).
    by rewrite !append_assoc.
Qed.

End strings.

Section paths.

Lemma descend_parts d names :
  descend d names = {| anchor := anchor d; parts := parts d ++ names |}.
Proof.
  revert d. induction names as [|n names IH]; intros d; simpl.
  - rewrite app_nil_r. by destruct d.
  - rewrite IH. simpl. by rewrite <- app_assoc.
Qed.

Lemma path_parent_child d n : path_parent (child d n) = d.
Proof.
  destruct d as [a l]. unfold path_parent, child; simpl.
  by rewrite removelast_last.
Qed.

Lemma path_name_child d n : path_name (child d n) = n.
Proof. unfold path_name, child; simpl. apply last_last. Qed.

Lemma str_of_path_anchored p :
  is_cwd p = false -> str_of_path p = anchor p ++ PyStr.join "/" (parts p).
Proof.
  unfold is_cwd, str_of_path. destruct (anchor p), (parts p); done.
Qed.

(** Below any directory but ["."], the printed path starts with the
    directory's printed path. *)
Lemma str_of_path_descend d n names :
  is_cwd d = false ->
  exists t, str_of_path (descend d (n :: names)) = str_of_path d ++ t.
Proof.
  intros Hd. rewrite descend_parts, (str_of_path_anchored d Hd).
  rewrite str_of_path_anchored; simpl anchor; simpl parts.
  - destruct (parts d) as [|x l] eqn:Hl.
    + exists (PyStr.join "/" (n :: names)).
      by rewrite append_assoc.
    + exists ("/" ++ PyStr.join "/" (n :: names)).
      rewrite join_app_cons by done. by rewrite append_assoc.
  - unfold is_cwd; simpl. destruct (anchor d); [|done].
    by destruct (parts d).
Qed.

Lemma contains_descend d n names p :
  is_cwd d = false ->
  PyStr.contains (str_of_path d) p = true ->
  PyStr.contains (str_of_path (descend d (n :: names))) p = true.
Proof.
  intros Hd Hp. destruct (str_of_path_descend d n names Hd) as [t ->].
  by apply contains_app_l.
Qed.

End paths.

(** ** Change detection *)

Section change_detector.

Context (fs : filesystem) (backup_index : index) (filepath : Path) (config_name : string).

Let config_index := default ∅ (backup_index !! config_name).
Let current_info := get_file_info fs filepath.

Lemma py_ne_true a b : py_ne a b = true <-> a <> b.
Proof. unfold py_ne. apply bool_decide_eq_true. Qed.

Lemma py_ne_false a b : py_ne a b = false <-> a = b.
Proof.
  unfold py_ne. rewrite bool_decide_eq_false. split; [|by intros ->; auto].
  intros H. by destruct (decide (a = b)).
Qed.

Lemma should_backup_file_new :
  config_index !! str_of_path filepath = None ->
  should_backup_file fs backup_index filepath config_name = true.
Proof. unfold should_backup_file. fold config_index. by intros ->. Qed.

Lemma should_backup_file_known stored_info :
  config_index !! str_of_path filepath = Some stored_info ->
  should_backup_file fs backup_index filepath config_name =
    py_ne (current_info !! "hash") (stored_info !! "hash")
    || py_ne (current_info !! "mtime") (stored_info !! "mtime").
Proof. unfold should_backup_file. fold config_index. by intros ->. Qed.

(** The decision depends on the index only through the record stored for
    the file under the configuration. *)
Lemma should_backup_file_true :
  should_backup_file fs backup_index filepath config_name = true <->
  config_index !! str_of_path filepath = None
  \/ exists stored_info,
       config_index !! str_of_path filepath = Some stored_info
       /\ (current_info !! "hash" <> stored_info !! "hash"
           \/ current_info !! "mtime" <> stored_info !! "mtime").
Proof.
  destruct (config_index !! str_of_path filepath) as [stored|] eqn:E.
  - rewrite (should_backup_file_known stored E), orb_true_iff, !py_ne_true.
    split.
    + intros H. right. by exists stored.
    + intros [?|(st & [= <-] & H)]; done.
  - rewrite (should_backup_file_new E). split; auto.
Qed.

End change_detector.

(** C1. In incremental mode the loop goes on to copy a file exactly when the
    file has no record under the backup set in the change index, or the
    fingerprint just computed differs from the stored one, or the
    modification time just read differs from the stored one. When both are
    equal to the stored ones the file is passed over, whatever size the
    record holds. *)
Theorem change_detector_decision (fs : filesystem) (config : BackupConfig)
    (backup_index : index) (filepath : Path) (config_name : string) :
  incremental config = true ->
  let config_index := default ∅ (backup_index !! config_name) in
  let current_info := get_file_info fs filepath in
  (skip_unchanged fs config backup_index filepath config_name = false <->
     config_index !! str_of_path filepath = None
     \/ exists stored_info,
          config_index !! str_of_path filepath = Some stored_info
          /\ (current_info !! "hash" <> stored_info !! "hash"
              \/ current_info !! "mtime" <> stored_info !! "mtime"))
  /\ (forall stored_info,
        config_index !! str_of_path filepath = Some stored_info ->
        current_info !! "hash" = stored_info !! "hash" ->
        current_info !! "mtime" = stored_info !! "mtime" ->
        skip_unchanged fs config backup_index filepath config_name = true).
Proof.
  intros Hinc config_index current_info. unfold skip_unchanged. rewrite Hinc. simpl.
  split.
  - rewrite negb_false_iff. apply should_backup_file_true.
  - intros stored E Hh Hm. rewrite negb_true_iff.
    rewrite (should_backup_file_known fs backup_index filepath config_name stored E).
    apply orb_false_iff. split; by apply py_ne_false.
Qed.

Lemma change_detector_decision_witness :
  get_file_info fs_docs (Path_of "/src/a.txt") !! "size" <> info_other_size !! "size"
  /\ skip_unchanged fs_docs cfg_docs idx_other_size (Path_of "/src/a.txt") "docs" = true.
Proof.
  split; [by vm_compute|].
  apply (proj2 (change_detector_decision fs_docs cfg_docs idx_other_size
                  (Path_of "/src/a.txt") "docs" eq_refl) info_other_size);
    vm_compute; reflexivity.
Defined.

(** ** Reasoning about methods *)

Section method_logic.

Context {A : Type}.

Lemma bind_ok {B} (m : M A) (k : A -> M B) s a s' :
  m s = (Ok a, s') -> bind m k s = k a s'.
Proof. unfold bind. by intros ->. Qed.

Lemma bind_raise {B} (m : M A) (k : A -> M B) s e s' :
  m s = (Raise e, s') -> bind m k s = (Raise e, s').
Proof. unfold bind. by intros ->. Qed.

(** A property of the state kept by every round of a loop is kept by the
    loop, however it ends. *)
Lemma for_each_invariant (I : state -> Prop) (l : list A) (body : A -> M unit) :
  (forall x s, x ∈ l -> I s -> I (body x s).2) ->
  forall s, I s -> I (for_each l body s).2.
Proof.
  induction l as [|x l IH]; intros Hbody s Hs; simpl; [done|].
  unfold bind. specialize (Hbody x s) as Hx.
  destruct (body x s) as [[[]|e] s1]; simpl in *.
  - apply IH; [|apply Hx; [left|done]].
    intros y s2 Hy. apply Hbody. by right.
  - apply Hx; [left|done].
Qed.

(** When moreover no round raises, neither does the loop. *)
Lemma for_each_returns (I : state -> Prop) (l : list A) (body : A -> M unit) :
  (forall x s, x ∈ l -> I s -> (body x s).1 = Ok tt /\ I (body x s).2) ->
  forall s, I s -> (for_each l body s).1 = Ok tt /\ I (for_each l body s).2.
Proof.
  induction l as [|x l IH]; intros Hbody s Hs; simpl; [done|].
  unfold bind. destruct (Hbody x s) as [Hr Hx]; [left|done|].
  destruct (body x s) as [r s1]; simpl in *; subst r.
  apply IH; [|done]. intros y s2 Hy. apply Hbody. by right.
Qed.

(** What each round establishes for its element, and no later round
    undoes, holds of every element after a loop that returns. *)
Lemma for_each_establishes (I : state -> Prop) (R : A -> state -> Prop)
    (l : list A) (body : A -> M unit) :
  (forall x s, x ∈ l -> I s -> I (body x s).2) ->
  (forall x s, x ∈ l -> I s -> (body x s).1 = Ok tt -> R x (body x s).2) ->
  (forall x y s, y ∈ l -> I s -> R x s -> R x (body y s).2) ->
  forall s, I s -> (for_each l body s).1 = Ok tt ->
  forall x, x ∈ l -> R x (for_each l body s).2.
Proof.
  intros HI Hest Hstab.
  assert (Hkeep : forall l' x s, l' ⊆ l -> I s -> R x s -> R x (for_each l' body s).2).
  { intros l' x s Hl' Hs Hx.
    apply (for_each_invariant (fun s => I s /\ R x s)); [|done].
    intros y s' Hy [??]. split; [apply HI|apply Hstab]; auto. }
  induction l as [|x l IH]; intros s Hs Hok y Hy; [by apply elem_of_nil in Hy|].
  simpl in *. unfold bind in *.
  specialize (HI x s (list_elem_of_here _ _) Hs) as Hs1.
  specialize (Hest x s (list_elem_of_here _ _) Hs) as Hx1.
  destruct (body x s) as [[[]|e] s1] eqn:E; simpl in *; [|done].
  apply elem_of_cons in Hy as [->|Hy].
  - apply Hkeep; [set_solver|done|by apply Hx1].
  - apply IH; try done.
    + intros z s2 Hz. apply HI. by right.
    + intros z s2 Hz. apply Hest. by right.
    + intros z w s2 Hw. apply Hstab. by right.
    + intros l' z s2 Hl'. apply Hkeep. set_solver.
Qed.

End method_logic.

(** ** One file of the walk *)

Section backup_file.

Context (fs : filesystem) (clk : clock) (config : BackupConfig) (config_name : string).
Context (source_path dest_path root_path : Path) (file : string).

Let filepath := child root_path file.
Let dest_file_path := dest_file_path_of source_path dest_path filepath.
Let step := backup_file fs clk config config_name source_path dest_path root_path file.

(** The file is passed over: excluded, or unchanged in incremental mode. *)
Lemma backup_file_skip s :
  should_exclude filepath (exclude_patterns config) = true
  \/ skip_unchanged fs config (backup_index s) filepath config_name = true ->
  step s = (Ok tt, s).
Proof.
  unfold step, backup_file. fold filepath.
  destruct (should_exclude filepath _); [done|].
  intros [?|H]; [done|]. unfold bind, gets. by rewrite H.
Qed.

(** The directory for the copy cannot be made: the exception leaves the
    loop. *)
Lemma backup_file_mkdir_fails s :
  should_exclude filepath (exclude_patterns config) = false ->
  skip_unchanged fs config (backup_index s) filepath config_name = false ->
  fs_mkdir_ok fs (str_of_path (path_parent dest_file_path)) = false ->
  step s = (Raise PermissionError, s).
Proof.
  intros Hex Hsk Hmk. unfold step, backup_file. fold filepath dest_file_path.
  rewrite Hex. unfold bind, gets, mkdir_parents. by rewrite Hsk, Hmk.
Qed.

(** The copy fails: the exception is caught and logged, nothing else
    changes, and the loop goes on. *)
Lemma backup_file_copy_fails s :
  should_exclude filepath (exclude_patterns config) = false ->
  skip_unchanged fs config (backup_index s) filepath config_name = false ->
  fs_mkdir_ok fs (str_of_path (path_parent dest_file_path)) = true ->
  copy_ok fs filepath dest_file_path = false ->
  exists e, step s = (Ok tt, add_log (Error_copy (str_of_path filepath) e) s).
Proof.
  intros Hex Hsk Hmk Hcp. unfold step, backup_file. fold filepath dest_file_path.
  rewrite Hex. unfold bind, gets, mkdir_parents, try_except, copy2, copy_ok in *.
  rewrite Hsk, Hmk. simpl.
  destruct (fs_read fs _); [destruct (fs_stat fs _)|]; [rewrite Hcp|..]; eauto.
Qed.

(** The copy succeeds: the counters advance and the fresh record of the
    file is stored, nothing is logged. *)
Lemma backup_file_copies s config_index :
  should_exclude filepath (exclude_patterns config) = false ->
  skip_unchanged fs config (backup_index s) filepath config_name = false ->
  fs_mkdir_ok fs (str_of_path (path_parent dest_file_path)) = true ->
  copy_ok fs filepath dest_file_path = true ->
  backup_index s !! config_name = Some config_index ->
  exists s',
    step s = (Ok tt, s')
    /\ configs s' = configs s
    /\ backup_index s' =
         <[config_name := <[str_of_path filepath := get_file_info fs filepath]> config_index]>
           (backup_index s)
    /\ copies s' = (copies s ++ [(str_of_path filepath, str_of_path dest_file_path)])%list
    /\ copy_errors s' = copy_errors s
    /\ files_backed_up s' = files_backed_up s + 1.
Proof.
  intros Hex Hsk Hmk Hcp Hci. unfold step, backup_file. fold filepath dest_file_path.
  rewrite Hex. unfold bind, gets, mkdir_parents, try_except, copy2, copy_ok, stat in *.
  rewrite Hsk, Hmk. simpl.
  destruct (fs_read fs _); [|done]. destruct (fs_stat fs _); [|done].
  rewrite Hcp. simpl. unfold index_store, bind, gets. simpl. rewrite Hci. simpl.
  eexists. split; [reflexivity|]. repeat split; try reflexivity.
  unfold copies. simpl. by rewrite omap_app.
Qed.

End backup_file.

(** ** The loops of a run *)

Section run_invariant.

Context (fs : filesystem) (clk : clock) (config : BackupConfig) (config_name : string).
Context (dest_path : Path).

Lemma get_file_info_ext p q :
  str_of_path p = str_of_path q -> get_file_info fs p = get_file_info fs q.
Proof. unfold get_file_info, calculate_file_hash. by intros ->. Qed.

Lemma should_exclude_ext p q pats :
  str_of_path p = str_of_path q -> should_exclude p pats = should_exclude q pats.
Proof. unfold should_exclude. by intros ->. Qed.

(** The test to pass over a file reads the index at the file's record only. *)
Lemma skip_unchanged_ext idx idx' p q :
  str_of_path p = str_of_path q ->
  default ∅ (idx !! config_name) !! str_of_path p
  = default ∅ (idx' !! config_name) !! str_of_path p ->
  skip_unchanged fs config idx p config_name = skip_unchanged fs config idx' q config_name.
Proof.
  intros Hpq H. unfold skip_unchanged, should_backup_file.
  rewrite H, <- Hpq, (get_file_info_ext p q Hpq). done.
Qed.

(** A file whose stored record is the one just computed is not to be
    backed up again. *)
Lemma should_backup_file_fresh idx ci p :
  idx !! config_name = Some ci ->
  ci !! str_of_path p = Some (get_file_info fs p) ->
  should_backup_file fs idx p config_name = false.
Proof.
  intros Hci Hp. unfold should_backup_file. rewrite Hci. simpl. rewrite Hp.
  apply orb_false_iff. split; by apply py_ne_false.
Qed.

Lemma run_inv_refl s ci0 :
  backup_index s !! config_name = Some ci0 ->
  run_inv fs config config_name dest_path s s.
Proof.
  intros H. exists [], [], ci0, ci0. simpl. rewrite !app_nil_r.
  repeat split; try done; [lia|].
  intros v Hv. by apply elem_of_nil in Hv.
Qed.

(** Within a run, a file that is still to be copied was to be copied from
    the start. *)
Lemma run_inv_skip s0 s p :
  run_inv fs config config_name dest_path s0 s ->
  skip_unchanged fs config (backup_index s) p config_name = false ->
  skip_unchanged fs config (backup_index s0) p config_name = false.
Proof.
  intros (new & errs & ci0 & ci & _ & _ & _ & _ & _ & _ & _ & H0 & H1 & Hold & Hnew) Hs.
  destruct (decide (str_of_path p ∈ map (fun v => str_of_path v.2) new)) as [Hin|Hin].
  - apply list_elem_of_fmap in Hin as (v & Hv & Hvin).
    specialize (Hnew v Hvin). rewrite <- Hv in Hnew.
    rewrite <- (get_file_info_ext p v.2 Hv) in Hnew.
    unfold skip_unchanged in Hs |- *.
    rewrite (should_backup_file_fresh _ ci p H1 Hnew) in Hs.
    destruct (incremental config); done.
  - rewrite <- Hs. symmetry. apply skip_unchanged_ext; [done|].
    rewrite H0, H1. simpl. by apply Hold.
Qed.

Lemma copy_errors_add_log_error p e s :
  copy_errors (add_log (Error_copy p e) s) = (copy_errors s ++ [p])%list.
Proof. unfold copy_errors. simpl. by rewrite omap_app. Qed.

(** One file of the walk keeps the invariant of the run. *)
Lemma run_inv_backup_file s0 s source_path root_path file :
  run_inv fs config config_name dest_path s0 s ->
  run_inv fs config config_name dest_path s0
    (backup_file fs clk config config_name source_path dest_path root_path file s).2.
Proof.
  intros Hinv.
  set (filepath := child root_path file).
  set (dest_file_path := dest_file_path_of source_path dest_path filepath).
  destruct (should_exclude filepath (exclude_patterns config)) eqn:Hex;
    [by rewrite backup_file_skip; auto|].
  destruct (skip_unchanged fs config (backup_index s) filepath config_name) eqn:Hsk;
    [by rewrite backup_file_skip; auto|].
  destruct (fs_mkdir_ok fs (str_of_path (path_parent dest_file_path))) eqn:Hmk;
    [|by rewrite backup_file_mkdir_fails].
  pose proof (run_inv_skip s0 s filepath Hinv Hsk) as Hsk0.
  destruct Hinv as (new & errs & ci0 & ci & Hcf & Hcp & Her & Hn & Hnew & Herrs
                    & Hoth & H0 & H1 & Hold & Hfresh).
  destruct (copy_ok fs filepath dest_file_path) eqn:Hok.
  - destruct (backup_file_copies fs clk config config_name source_path dest_path
                root_path file s ci Hex Hsk Hmk Hok H1)
      as (s' & -> & Hcf' & Hidx' & Hcp' & Her' & Hn').
    simpl. exists (new ++ [(source_path, filepath)])%list, errs, ci0,
      (<[str_of_path filepath := get_file_info fs filepath]> ci).
    rewrite Hcf', Hidx', Hcp', Her', Hn', Hcp, Hn, map_app, length_app. simpl.
    repeat split; try done.
    + by rewrite <- app_assoc.
    + lia.
    + apply Forall_app. split; [done|]. by apply Forall_singleton.
    + intros c Hc. rewrite lookup_insert_ne by done. by apply Hoth.
    + by rewrite lookup_insert_eq.
    + intros key Hkey. rewrite map_app, not_elem_of_app in Hkey.
      destruct Hkey as [Hkey Hne]. simpl in Hne. rewrite not_elem_of_cons in Hne.
      destruct Hne as [Hne _]. rewrite lookup_insert_ne by done. by apply Hold.
    + intros v [Hv|Hv%list_elem_of_singleton]%elem_of_app.
      * destruct (decide (str_of_path filepath = str_of_path v.2)) as [E|E].
        -- rewrite <- E, lookup_insert_eq. f_equal. by apply get_file_info_ext.
        -- rewrite lookup_insert_ne by done. by apply Hfresh.
      * subst v. simpl. by rewrite lookup_insert_eq.
  - destruct (backup_file_copy_fails fs clk config config_name source_path dest_path
                root_path file s Hex Hsk Hmk Hok) as (e & ->).
    simpl. exists new, (errs ++ [(source_path, filepath)])%list, ci0, ci.
    rewrite copy_errors_add_log_error, map_app, Her. simpl.
    repeat split; try done.
    + by rewrite <- app_assoc.
    + apply Forall_app. split; [done|]. by apply Forall_singleton.
Qed.

(** What every file of the walk keeps, and the two messages about source
    directories keep, is kept by the loops over directories and sources. *)
Section loops_keep.

Context (J : state -> Prop).
Hypothesis J_file : forall source_path root_path file s,
  J s -> J (backup_file fs clk config config_name source_path dest_path root_path file s).2.
Hypothesis J_warning : forall p s, J s -> J (add_log (Warning_source_not_found p) s).
Hypothesis J_info : forall p s, J s -> J (add_log (Info_source p) s).

Lemma backup_dir_keeps source_path step s :
  J s -> J (backup_dir fs clk config config_name source_path dest_path step s).2.
Proof.
  destruct step as [[root_path dirs] files]. unfold backup_dir.
  destruct (should_exclude root_path _); [done|].
  apply for_each_invariant. intros file s' _. apply J_file.
Qed.

Lemma backup_source_keeps source_dir s :
  J s -> J (backup_source fs clk config config_name dest_path source_dir s).2.
Proof.
  unfold backup_source. destruct (expanduser fs _) as [source_path|]; [|done].
  destruct (fs_tree fs _) as [t|]; [|apply J_warning].
  intros Hs. unfold bind, log, modify.
  apply for_each_invariant; [|by apply J_info].
  intros step s' _. apply backup_dir_keeps.
Qed.

Lemma backup_sources_keep l s :
  J s -> J (for_each l (backup_source fs clk config config_name dest_path) s).2.
Proof. apply for_each_invariant. intros x s' _. apply backup_source_keeps. Qed.

End loops_keep.

Lemma run_inv_add_log s0 s r :
  (forall p e, r <> Error_copy p e) ->
  run_inv fs config config_name dest_path s0 s ->
  run_inv fs config config_name dest_path s0 (add_log r s).
Proof.
  intros Hr (new & errs & ci0 & ci & Hcf & Hcp & Her & H).
  exists new, errs, ci0, ci. repeat split; try apply H; try done.
  rewrite <- Her. unfold copy_errors. simpl. rewrite omap_app. simpl.
  destruct r; try by rewrite app_nil_r. by destruct (Hr filepath e).
Qed.

(** The loops of a run keep the invariant of the run. *)
Lemma run_inv_sources s0 l s :
  run_inv fs config config_name dest_path s0 s ->
  run_inv fs config config_name dest_path s0
    (for_each l (backup_source fs clk config config_name dest_path) s).2.
Proof.
  apply backup_sources_keep.
  - intros. by apply run_inv_backup_file.
  - intros. by apply run_inv_add_log.
  - intros. by apply run_inv_add_log.
Qed.

(** What the round of a file establishes for that file, and every later
    round keeps, holds of every visited file after loops that return. *)
Section loops_establish.

Context (s0 : state) (P : Path -> Path -> state -> Prop).
Hypothesis P_file : forall sp fp source_path root_path file s,
  run_inv fs config config_name dest_path s0 s ->
  P sp fp s ->
  P sp fp (backup_file fs clk config config_name source_path dest_path root_path file s).2.
Hypothesis P_warning : forall sp fp p s, P sp fp s -> P sp fp (add_log (Warning_source_not_found p) s).
Hypothesis P_info : forall sp fp p s, P sp fp s -> P sp fp (add_log (Info_source p) s).
Hypothesis P_established : forall source_path root_path file s,
  run_inv fs config config_name dest_path s0 s ->
  should_exclude (child root_path file) (exclude_patterns config) = false ->
  (backup_file fs clk config config_name source_path dest_path root_path file s).1 = Ok tt ->
  P source_path (child root_path file)
    (backup_file fs clk config config_name source_path dest_path root_path file s).2.

Let J sp fp s := run_inv fs config config_name dest_path s0 s /\ P sp fp s.

Lemma J_backup_file sp fp source_path root_path file s :
  J sp fp s ->
  J sp fp (backup_file fs clk config config_name source_path dest_path root_path file s).2.
Proof. intros [??]. split; [by apply run_inv_backup_file | by apply P_file]. Qed.

Lemma J_backup_dir sp fp source_path step s :
  J sp fp s -> J sp fp (backup_dir fs clk config config_name source_path dest_path step s).2.
Proof.
  apply (backup_dir_keeps (J sp fp)). intros. by apply J_backup_file.
Qed.

Lemma J_backup_source sp fp source_dir s :
  J sp fp s -> J sp fp (backup_source fs clk config config_name dest_path source_dir s).2.
Proof.
  apply (backup_source_keeps (J sp fp)).
  - intros. by apply J_backup_file.
  - intros p s' [??]. split; [by apply run_inv_add_log | by apply P_warning].
  - intros p s' [??]. split; [by apply run_inv_add_log | by apply P_info].
Qed.

Let R_dir sp (step : Path * list string * list string) s :=
  should_exclude step.1.1 (exclude_patterns config) = false ->
  forall file, file ∈ step.2 ->
    should_exclude (child step.1.1 file) (exclude_patterns config) = false ->
    P sp (child step.1.1 file) s.

Lemma backup_dir_establishes source_path step s :
  run_inv fs config config_name dest_path s0 s ->
  (backup_dir fs clk config config_name source_path dest_path step s).1 = Ok tt ->
  R_dir source_path step (backup_dir fs clk config config_name source_path dest_path step s).2.
Proof.
  destruct step as [[root_path dirs] files]. unfold backup_dir, R_dir. simpl.
  intros Hs Hok Hroot file Hfile Hex. rewrite Hroot in Hok |- *.
  refine (for_each_establishes (run_inv fs config config_name dest_path s0)
            (fun file s => should_exclude (child root_path file) (exclude_patterns config)
                           = false -> P source_path (child root_path file) s)
            files _ _ _ _ s Hs Hok file Hfile Hex).
  - intros. by apply run_inv_backup_file.
  - intros. by apply P_established.
  - intros x y s' _ Hs' Hx Hexx. apply P_file; auto.
Qed.

Let R_source (source_dir : string) s :=
  forall source_path t step,
    expanduser fs (Path_of source_dir) = Some source_path ->
    fs_tree fs (str_of_path source_path) = Some t ->
    step ∈ walk source_path t ->
    R_dir source_path step s.

Lemma backup_source_establishes source_dir s :
  run_inv fs config config_name dest_path s0 s ->
  (backup_source fs clk config config_name dest_path source_dir s).1 = Ok tt ->
  R_source source_dir (backup_source fs clk config config_name dest_path source_dir s).2.
Proof.
  unfold backup_source, R_source. intros Hs Hok source_path t step Hsp Ht Hstep.
  rewrite Hsp, Ht in Hok |- *. unfold bind, log, modify in Hok |- *.
  refine (for_each_establishes (run_inv fs config config_name dest_path s0)
            (R_dir source_path) (walk source_path t) _ _ _ _ _ _ Hok step Hstep).
  - intros. apply (backup_dir_keeps (run_inv fs config config_name dest_path s0)); [|done].
    intros. by apply run_inv_backup_file.
  - intros. by apply backup_dir_establishes.
  - intros x y s' _ Hs' Hx Hroot file Hfile Hex.
    apply (J_backup_dir source_path (child x.1.1 file) source_path y s'). split; [done|].
    by apply Hx.
  - by apply run_inv_add_log.
Qed.

Lemma backup_sources_establish s :
  run_inv fs config config_name dest_path s0 s ->
  (for_each (source_dirs config) (backup_source fs clk config config_name dest_path) s).1
    = Ok tt ->
  forall source_path filepath,
    visited fs config source_path filepath ->
    P source_path filepath
      (for_each (source_dirs config) (backup_source fs clk config config_name dest_path) s).2.
Proof.
  intros Hs Hok source_path filepath
    (source_dir & t & root_path & dirs & files & file & Hsd & Hsp & Ht & Hstep & Hroot
     & Hfile & -> & Hex).
  refine (for_each_establishes (run_inv fs config config_name dest_path s0)
            R_source (source_dirs config) _ _ _ _ s Hs Hok source_dir Hsd
            source_path t (root_path, dirs, files) Hsp Ht Hstep Hroot file Hfile Hex).
  - intros. apply (backup_source_keeps (run_inv fs config config_name dest_path s0)); auto.
    + intros. by apply run_inv_backup_file.
    + intros. by apply run_inv_add_log.
    + intros. by apply run_inv_add_log.
  - intros. by apply backup_source_establishes.
  - intros x y s' _ Hs' Hx sp' t' step' Hsp' Ht' Hstep' Hroot' file' Hfile' Hex'.
    apply (J_backup_source sp' (child step'.1.1 file') y s'). split; [done|].
    by apply (Hx sp' t' step').
Qed.

End loops_establish.

End run_invariant.

(** ** Methods that do not touch the index, the copies or the counter *)

Section quiet.

Lemma same_view_refl s : same_view s s.
Proof. by repeat split. Qed.

Lemma same_view_trans s1 s2 s3 : same_view s1 s2 -> same_view s2 s3 -> same_view s1 s3.
Proof.
  intros (?&?&?&?&?) (?&?&?&?&?). repeat split; congruence.
Qed.

Context {A : Type}.

Lemma quiet_ret (a : A) : quiet (ret a).
Proof. intros s. apply same_view_refl. Qed.

Lemma quiet_raise e : quiet (@raise A e).
Proof. intros s. apply same_view_refl. Qed.

Lemma quiet_gets (f : state -> A) : quiet (gets f).
Proof. intros s. apply same_view_refl. Qed.

Lemma quiet_bind {B} (m : M A) (k : A -> M B) :
  quiet m -> (forall a, quiet (k a)) -> quiet (bind m k).
Proof.
  intros Hm Hk s. unfold bind. specialize (Hm s).
  destruct (m s) as [[a|e] s1]; simpl in *; [|done].
  eapply same_view_trans; [done|apply Hk].
Qed.

Lemma quiet_try_except (m : M A) (h : exn -> M A) :
  quiet m -> (forall e, quiet (h e)) -> quiet (try_except m h).
Proof.
  intros Hm Hh s. unfold try_except. specialize (Hm s).
  destruct (m s) as [[a|e] s1]; simpl in *; [done|].
  eapply same_view_trans; [done|apply Hh].
Qed.

Lemma quiet_for_each (l : list A) (body : A -> M unit) :
  (forall x, quiet (body x)) -> quiet (for_each l body).
Proof.
  intros Hbody s. apply (for_each_invariant (same_view s)); [|apply same_view_refl].
  intros x s' _ Hs'. eapply same_view_trans; [done|apply Hbody].
Qed.

End quiet.

Lemma quiet_set_dest_fs f : quiet (modify (set_dest_fs f)).
Proof. intros s. by repeat split. Qed.

Lemma quiet_add_effect o :
  (forall src dst, o <> OpCopy2 src dst) -> quiet (modify (add_effect o)).
Proof.
  intros Ho s. repeat split; try done. unfold copies. simpl. rewrite omap_app. simpl.
  destruct o; try by rewrite app_nil_r. by destruct (Ho src dst).
Qed.

Lemma quiet_log r : (forall p e, r <> Error_copy p e) -> quiet (log r).
Proof.
  intros Hr s. repeat split; try done. unfold copy_errors. simpl. rewrite omap_app. simpl.
  destruct r; try by rewrite app_nil_r. by destruct (Hr filepath e).
Qed.

Lemma quiet_mkdir_snapshot fs clk dest_path : quiet (mkdir_snapshot fs clk dest_path).
Proof.
  unfold mkdir_snapshot. apply quiet_bind; [apply quiet_gets|]. intros l.
  destruct (l !! _) as [[]|]; [apply quiet_ret|apply quiet_raise|].
  destruct (fs_mkdir_ok fs _); [|apply quiet_raise].
  apply quiet_bind; [apply quiet_set_dest_fs|]. intros _. by apply quiet_add_effect.
Qed.

Lemma quiet_remove_entry fs op path :
  (forall p src dst, op p <> OpCopy2 src dst) -> quiet (remove_entry fs op path).
Proof.
  intros Hop. unfold remove_entry. destruct (fs_remove_ok fs _); [|apply quiet_raise].
  apply quiet_bind; [apply quiet_set_dest_fs|]. intros _. by apply quiet_add_effect.
Qed.

Lemma quiet_rmtree fs path : quiet (rmtree fs path).
Proof. by apply quiet_remove_entry. Qed.

Lemma quiet_unlink fs path : quiet (unlink fs path).
Proof. by apply quiet_remove_entry. Qed.

Lemma quiet_compress_backup fs clk backup_path : quiet (compress_backup fs clk backup_path).
Proof.
  unfold compress_backup. apply quiet_bind; [by apply quiet_log|]. intros _.
  apply quiet_try_except; [|intros e; by apply quiet_log].
  apply quiet_bind.
  - destruct (fs_tar_ok fs _); [|apply quiet_raise].
    apply quiet_bind; [apply quiet_set_dest_fs|]. intros _. by apply quiet_add_effect.
  - intros _. apply quiet_bind; [apply quiet_rmtree|]. intros _. by apply quiet_log.
Qed.

Lemma quiet_remove_backup fs dest_dir item : quiet (remove_backup fs dest_dir item).
Proof.
  unfold remove_backup. apply quiet_try_except; [|intros e; by apply quiet_log].
  apply quiet_bind; [|intros _; by apply quiet_log].
  destruct (is_dir _); [apply quiet_rmtree|apply quiet_unlink].
Qed.

Lemma quiet_cleanup_old_backups fs config : quiet (cleanup_old_backups fs config).
Proof.
  unfold cleanup_old_backups. apply quiet_bind; [apply quiet_gets|]. intros dfs.
  destruct (dfs !! _); [|apply quiet_ret].
  destruct (_ >? _)%Z; [|apply quiet_ret].
  apply quiet_for_each. intros item. apply quiet_remove_backup.
Qed.

Lemma quiet_save_backup_index fs : quiet (save_backup_index fs).
Proof.
  unfold save_backup_index. destruct (fs_save_ok fs); [|apply quiet_raise].
  apply quiet_bind; [|intros _; by apply quiet_add_effect].
  intros s. by repeat split.
Qed.

(** ** The shape of a run *)

Section create_backup.

Context (fs : filesystem) (clk : clock) (config_name : string).

Lemma bind_modify {B} f (k : unit -> M B) s : bind (modify f) k s = k tt (f s).
Proof. reflexivity. Qed.

Lemma bind_gets {A B} (f : state -> A) (k : A -> M B) s : bind (gets f) k s = k (f s) s.
Proof. reflexivity. Qed.

(** An unknown configuration: an error is logged and [False] returned. *)
Lemma create_backup_not_found s :
  configs s !! config_name = None ->
  create_backup fs clk config_name s
  = (Ok false, add_log (Error_config_not_found config_name) s).
Proof. intros H. unfold create_backup. rewrite bind_gets, H. reflexivity. Qed.

Lemma mkdir_snapshot_raises dest_path s :
  can_make_snapshot fs s dest_path = false ->
  exists e, mkdir_snapshot fs clk dest_path s = (Raise e, s).
Proof.
  unfold can_make_snapshot, mkdir_snapshot. rewrite bind_gets.
  destruct (listing s _ !! _) as [[]|]; [done|by eexists|].
  intros ->. by eexists.
Qed.

Lemma mkdir_snapshot_returns dest_path s :
  can_make_snapshot fs s dest_path = true ->
  (mkdir_snapshot fs clk dest_path s).1 = Ok tt.
Proof.
  unfold can_make_snapshot, mkdir_snapshot. rewrite bind_gets.
  destruct (listing s _ !! _) as [[]|]; [done|done|].
  by intros ->.
Qed.

Lemma compress_backup_returns backup_path s :
  (compress_backup fs clk backup_path s).1 = Ok tt.
Proof.
  unfold compress_backup, log. rewrite bind_modify. unfold try_except.
  by destruct (bind _ _ _) as [[[]|e] s'].
Qed.

Lemma remove_backup_returns dest_dir item s :
  (remove_backup fs dest_dir item s).1 = Ok tt.
Proof.
  unfold remove_backup, try_except. by destruct (bind _ _ _) as [[[]|e] s'].
Qed.

Lemma cleanup_old_backups_returns config s :
  (cleanup_old_backups fs config s).1 = Ok tt.
Proof.
  unfold cleanup_old_backups. rewrite bind_gets.
  destruct (dest_fs s !! _); [|done]. destruct (_ >? _)%Z; [|done].
  apply (for_each_returns (fun _ => True)); [|done].
  intros item s' _ _. split; [apply remove_backup_returns|done].
Qed.

(** The snapshot directory cannot be made: the run ends there with the
    exception, having changed nothing. *)
Lemma create_backup_cannot_start config s :
  configs s !! config_name = Some config ->
  can_make_snapshot fs s (snapshot_path config config_name clk) = false ->
  exists e, create_backup fs clk config_name s = (Raise e, s).
Proof.
  intros Hc Hmk. unfold create_backup. rewrite bind_gets, Hc.
  destruct (mkdir_snapshot_raises _ s Hmk) as [e He].
  exists e. by rewrite (bind_raise _ _ _ _ _ He).
Qed.

(** Otherwise the run enters its loops in a state [s1] that has the
    counter at zero and the index prepared, and ends after the loops: with
    their exception, or else by archiving, pruning and saving, which
    leave index, copies and counter as the loops left them. *)
Lemma create_backup_run config s :
  configs s !! config_name = Some config ->
  can_make_snapshot fs s (snapshot_path config config_name clk) = true ->
  exists s1,
    configs s1 = configs s
    /\ backup_index s1 = prepared config_name (backup_index s)
    /\ copies s1 = copies s
    /\ copy_errors s1 = copy_errors s
    /\ files_backed_up s1 = 0
    /\ match run_loops fs clk config config_name s1 with
       | (Raise e, s2) => create_backup fs clk config_name s = (Raise e, s2)
       | (Ok _, s2) =>
           same_view s2 (create_backup fs clk config_name s).2
           /\ (create_backup fs clk config_name s).1
              = if fs_save_ok fs then Ok true else Raise PermissionError
       end.
Proof.
  intros Hc Hmk. unfold create_backup. rewrite bind_gets, Hc.
  set (dest_path := snapshot_path config config_name clk) in *.
  pose proof (mkdir_snapshot_returns dest_path s Hmk) as Hr.
  pose proof (quiet_mkdir_snapshot fs clk dest_path s) as (Hv1 & Hv2 & Hv3 & Hv4 & Hv5).
  destruct (mkdir_snapshot fs clk dest_path s) as [r sm] eqn:Em. simpl in *. subst r.
  rewrite (bind_ok _ _ _ _ _ Em). unfold log. rewrite !bind_modify.
  set (s' := set_total_size _ _).
  set (s1 := set_backup_index (fun _ => prepared config_name (backup_index sm)) s').
  exists s1. split; [done|]. split; [by simpl; rewrite Hv2|]. split; [done|].
  split. { unfold copy_errors in *. simpl. rewrite omap_app. simpl. by rewrite app_nil_r. }
  split; [done|].
  assert (Hs1 : forall B (k : unit -> M B),
    bind (prepare_index config_name) k s' = k tt s1).
  { intros B k. unfold s1, prepared, prepare_index, bind, gets, ret, modify. simpl.
    destruct (backup_index sm !! config_name) eqn:E; [|done].
    reflexivity. }
  rewrite (Hs1 _ (fun _ => _)). fold (run_loops fs clk config config_name).
  destruct (run_loops fs clk config config_name s1) as [[[]|e] s2] eqn:El;
    [|by rewrite (bind_raise _ _ _ _ _ El)].
  rewrite (bind_ok _ _ _ _ _ El).
  set (finish := bind _ _).
  assert (Hq : quiet finish).
  { unfold finish. apply quiet_bind.
    - destruct (compression config); [apply quiet_compress_backup|apply quiet_ret].
    - intros _. apply quiet_bind; [apply quiet_cleanup_old_backups|]. intros _.
      apply quiet_bind; [apply quiet_save_backup_index|]. intros _.
      apply quiet_bind; [|intros _; apply quiet_ret].
      apply quiet_bind; [apply quiet_gets|]. intros n.
      apply quiet_bind; [apply quiet_gets|]. intros sz. by apply quiet_log. }
  split; [apply Hq|].
  unfold finish. clear Hq finish.
  set (cmp := if compression config then compress_backup fs clk dest_path else ret tt).
  assert (Hcomp : (cmp s2).1 = Ok tt).
  { unfold cmp. destruct (compression config); [apply compress_backup_returns|done]. }
  unfold bind at 1. destruct (cmp s2) as [r3 s3].
  simpl in Hcomp. subst r3. unfold bind at 1.
  pose proof (cleanup_old_backups_returns config s3) as Hcl.
  destruct (cleanup_old_backups fs config s3) as [r4 s4]. simpl in Hcl. subst r4.
  unfold save_backup_index. by destruct (fs_save_ok fs).
Qed.

End create_backup.

(** ** What a run does to the index *)

Section run_summary.

Context (fs : filesystem) (clk : clock) (config_name : string).

(** Every run with a known configuration either stops before its loops,
    having changed nothing, or has gone through its loops from a state
    [s1] to a state [s2] related by the invariant, and ends in a state with
    the same view as [s2]. *)
Lemma create_backup_cases config s :
  configs s !! config_name = Some config ->
  let r := create_backup fs clk config_name s in
  (r.2 = s /\ exists e, r.1 = Raise e)
  \/ exists s1 s2,
       configs s1 = configs s
       /\ backup_index s1 = prepared config_name (backup_index s)
       /\ copies s1 = copies s
       /\ copy_errors s1 = copy_errors s
       /\ files_backed_up s1 = 0
       /\ run_inv fs config config_name (snapshot_path config config_name clk) s1 s2
       /\ same_view s2 r.2
       /\ (run_loops fs clk config config_name s1 = (Ok tt, s2)
           /\ r.1 = (if fs_save_ok fs then Ok true else Raise PermissionError)
           \/ exists e, run_loops fs clk config config_name s1 = (Raise e, s2)
                        /\ r.1 = Raise e).
Proof.
  intros Hc r. subst r.
  destruct (can_make_snapshot fs s (snapshot_path config config_name clk)) eqn:Hmk.
  - right. destruct (create_backup_run fs clk config_name config s Hc Hmk)
      as (s1 & H1 & H2 & H3 & H4 & H5 & Hrun).
    assert (Hinv0 : run_inv fs config config_name (snapshot_path config config_name clk) s1 s1).
    { unfold prepared in H2.
      destruct (backup_index s !! config_name) as [ci|] eqn:E.
      - apply (run_inv_refl _ _ _ _ _ ci). by rewrite H2.
      - apply (run_inv_refl _ _ _ _ _ ∅). by rewrite H2, lookup_insert_eq. }
    pose proof (run_inv_sources fs clk config config_name _ s1 (source_dirs config) s1 Hinv0)
      as Hinv.
    fold (run_loops fs clk config config_name) in Hinv.
    destruct (run_loops fs clk config config_name s1) as [[[]|e] s2] eqn:El.
    + exists s1, s2. destruct Hrun as [Hv Hr]. split_and!; try done. by left.
    + exists s1, s2. rewrite Hrun. split_and!; try done; try apply same_view_refl.
      right. by exists e.
  - left. destruct (create_backup_cannot_start fs clk config_name config s Hc Hmk) as [e ->].
    split; [done|by exists e].
Qed.

Lemma index_lookup_prepared idx c p :
  index_lookup (prepared config_name idx) c p = index_lookup idx c p.
Proof.
  unfold prepared, index_lookup.
  destruct (idx !! config_name) eqn:E; [done|].
  destruct (decide (c = config_name)) as [->|Hc].
  - by rewrite lookup_insert_eq, E, lookup_empty.
  - by rewrite lookup_insert_ne.
Qed.

Lemma copies_new_copies s s' new :
  copies s' = (copies s ++ new)%list -> new_copies s s' = new.
Proof. intros H. unfold new_copies. by rewrite H, drop_app_length. Qed.

Lemma copy_errors_new s s' errs :
  copy_errors s' = (copy_errors s ++ errs)%list -> new_copy_errors s s' = errs.
Proof. intros H. unfold new_copy_errors. by rewrite H, drop_app_length. Qed.

End run_summary.

Section index_frame.

Context (fs : filesystem) (clk : clock) (config_name : string).

(** After a run, a record of the index is the one from before the run,
    or belongs to the run's configuration and to a file copied by the run,
    in which case it is the fresh record of that file. *)
Lemma create_backup_index_lookup s c p :
  let s' := (create_backup fs clk config_name s).2 in
  index_lookup (backup_index s') c p = index_lookup (backup_index s) c p
  \/ (c = config_name /\ p ∈ (new_copies s s').*1
      /\ is_Some (index_lookup (backup_index s') c p)).
Proof.
  intros s'. subst s'.
  destruct (configs s !! config_name) as [config|] eqn:Hc;
    [|left; by rewrite create_backup_not_found].
  destruct (create_backup_cases fs clk config_name config s Hc)
    as [[-> _]|(s1 & s2 & H1 & H2 & H3 & H4 & H5 & Hinv & Hv & _)]; [by left|].
  destruct Hv as (_ & Hi & Hcp & _). rewrite Hi.
  destruct Hinv as (new & errs & ci0 & ci & _ & Hnewc & _ & _ & _ & _ & Hoth & H0 & Hci
                    & Hold & Hfresh).
  rewrite <- (index_lookup_prepared config_name (backup_index s)), <- H2.
  assert (Hn : new_copies s (create_backup fs clk config_name s).2
               = map (copy_of (snapshot_path config config_name clk)) new).
  { apply copies_new_copies. by rewrite Hcp, Hnewc, H3. }
  rewrite Hn. unfold index_lookup.
  destruct (decide (c = config_name)) as [->|Hne]; [|left; by rewrite Hoth].
  rewrite Hci, H0.
  destruct (decide (p ∈ map (fun v : Path * Path => str_of_path v.2) new)) as [Hin|Hin];
    [|left; by apply Hold].
  right. split; [done|]. apply list_elem_of_fmap in Hin as (v & -> & Hv). split.
  - apply list_elem_of_fmap. exists (copy_of (snapshot_path config config_name clk) v).
    split; [done|]. apply list_elem_of_fmap. by exists v.
  - rewrite (Hfresh v Hv). by eexists.
Qed.

Lemma create_backup_index_keys s c :
  is_Some (backup_index s !! c) ->
  is_Some (backup_index (create_backup fs clk config_name s).2 !! c).
Proof.
  intros Hs.
  destruct (configs s !! config_name) as [config|] eqn:Hc;
    [|by rewrite create_backup_not_found].
  destruct (create_backup_cases fs clk config_name config s Hc)
    as [[-> _]|(s1 & s2 & H1 & H2 & H3 & H4 & H5 & Hinv & Hv & _)]; [done|].
  destruct Hv as (_ & -> & _).
  destruct Hinv as (new & errs & ci0 & ci & _ & _ & _ & _ & _ & _ & Hoth & H0 & Hci & _).
  destruct (decide (c = config_name)) as [->|Hne]; [by rewrite Hci|].
  rewrite Hoth, H2 by done. unfold prepared.
  destruct (backup_index s !! config_name); [done|]. by rewrite lookup_insert_ne.
Qed.

End index_frame.

(** C10. A run removes no key from the change index: a configuration that
    has an entry keeps one, a file that has a record keeps one, and a record
    differs after the run from what it was before (was absent, or was
    another) only under the run's configuration and for a file copied
    during the run. *)
Theorem index_only_grows (fs : filesystem) (clk : clock) (config_name : string) (s : state) :
  let s' := (create_backup fs clk config_name s).2 in
  (forall c, is_Some (backup_index s !! c) -> is_Some (backup_index s' !! c))
  /\ (forall c p, is_Some (index_lookup (backup_index s) c p) ->
                  is_Some (index_lookup (backup_index s') c p))
  /\ (forall c p, index_lookup (backup_index s') c p <> index_lookup (backup_index s) c p ->
                  c = config_name /\ p ∈ (new_copies s s').*1).
Proof.
  intros s'. subst s'. split_and!.
  - intros c. apply create_backup_index_keys.
  - intros c p Hp.
    destruct (create_backup_index_lookup fs clk config_name s c p) as [E|(_ & _ & H)];
      [by rewrite E|done].
  - intros c p Hp.
    destruct (create_backup_index_lookup fs clk config_name s c p) as [E|(? & ? & _)]; done.
Qed.

(** ** Exclusion *)

Section exclusion.

Context (fs : filesystem) (clk : clock) (config_name : string).

Lemma should_exclude_true p pats :
  should_exclude p pats = true <->
  exists l pattern, pats = Some l /\ pattern ∈ l
                    /\ PyStr.contains (str_of_path p) pattern = true.
Proof.
  unfold should_exclude. split.
  - destruct pats as [[|x l]|]; try done.
    intros (pattern & Hin & Hc)%existsb_exists.
    exists (x :: l), pattern. by rewrite list_elem_of_In.
  - intros (l & pattern & -> & Hin & Hc). destruct l as [|x l]; [by apply elem_of_nil in Hin|].
    apply existsb_exists. exists pattern. by rewrite <- list_elem_of_In.
Qed.

(** Below a directory that matches a pattern and is not ["."], every path
    matches the same pattern. *)
Lemma should_exclude_descend d n names pats :
  is_cwd d = false ->
  should_exclude d pats = true ->
  should_exclude (descend d (n :: names)) pats = true.
Proof.
  intros Hd (l & pattern & -> & Hin & Hc)%should_exclude_true.
  apply should_exclude_true. exists l, pattern. split_and!; try done.
  by apply contains_descend.
Qed.

Lemma skip_unchanged_prepared config idx p :
  skip_unchanged fs config (prepared config_name idx) p config_name
  = skip_unchanged fs config idx p config_name.
Proof.
  apply skip_unchanged_ext; [done|]. unfold prepared.
  destruct (idx !! config_name) eqn:E; simpl; [by rewrite E|].
  by rewrite lookup_insert_eq.
Qed.

(** Every copy made by a run is of a file that the run went on to copy:
    not excluded, to be copied by the index the run started with, and
    copied with success to its place under the snapshot. *)
Lemma create_backup_new_copies config s src dst :
  configs s !! config_name = Some config ->
  (src, dst) ∈ new_copies s (create_backup fs clk config_name s).2 ->
  exists v, (src, dst) = copy_of (snapshot_path config config_name clk) v
            /\ attempted fs config config_name (snapshot_path config config_name clk)
                 (backup_index s) true v.
Proof.
  intros Hc.
  destruct (create_backup_cases fs clk config_name config s Hc)
    as [[-> _]|(s1 & s2 & H1 & H2 & H3 & H4 & H5 & Hinv & Hv & _)].
  { unfold new_copies. rewrite drop_all. by intros ?%elem_of_nil. }
  destruct Hv as (_ & _ & Hcp & _).
  destruct Hinv as (new & errs & ci0 & ci & _ & Hnewc & _ & _ & Hnew & _).
  rewrite (copies_new_copies s _ (map (copy_of (snapshot_path config config_name clk)) new))
    by (by rewrite Hcp, Hnewc, H3).
  intros (v & -> & Hin)%list_elem_of_fmap. exists v. split; [done|].
  rewrite Forall_forall in Hnew. destruct (Hnew v Hin) as (Hex & Hsk & Hok).
  split_and!; try done. by rewrite H2, skip_unchanged_prepared in Hsk.
Qed.

End exclusion.

(** C4, as the program has it. No file below a directory whose printed path
    matches an exclude pattern is copied, provided the directory is not the
    relative path ["."]: every path below it then contains the directory's
    path, hence the pattern, and is itself excluded. The walk is not cut
    short; the directories below are listed and passed over one by one. *)
Theorem excluded_subtree_not_copied (fs : filesystem) (clk : clock) (config_name : string)
    (s : state) (config : BackupConfig) (d : Path) (n : string) (names : list string) :
  configs s !! config_name = Some config ->
  should_exclude d (exclude_patterns config) = true ->
  is_cwd d = false ->
  should_exclude (descend d (n :: names)) (exclude_patterns config) = true
  /\ str_of_path (descend d (n :: names))
       ∉ (new_copies s (create_backup fs clk config_name s).2).*1.
Proof.
  intros Hc Hd Hcwd.
  pose proof (should_exclude_descend d n names _ Hcwd Hd) as Hex.
  split; [done|].
  intros ([src dst] & Hsrc & Hin)%list_elem_of_fmap. simpl in Hsrc. subst src.
  destruct (create_backup_new_copies fs clk config_name config s _ _ Hc Hin)
    as (v & Hv & Hv2 & _).
  injection Hv as Hsrc _.
  by rewrite (should_exclude_ext _ _ _ Hsrc), Hv2 in Hex.
Qed.

Lemma excluded_subtree_not_copied_witness :
  should_exclude (descend (Path_of "/src/cache") ["deep"; "x.bin"])
    (exclude_patterns cfg_docs) = true
  /\ str_of_path (descend (Path_of "/src/cache") ["deep"; "x.bin"])
       ∉ (new_copies st_docs (create_backup fs_docs clk0 "docs" st_docs).2).*1.
Proof.
  apply (excluded_subtree_not_copied fs_docs clk0 "docs" st_docs cfg_docs
           (Path_of "/src/cache") "deep" ["x.bin"]); reflexivity.
Defined.

(** C4, as stated, fails for the source directory ["."]: it matches the
    pattern ["."], and yet the file [a/README] below it is copied, because
    the path of [a] is printed without the dot. *)
Lemma subtree_of_dot_is_copied :
  should_exclude (Path_of ".") (exclude_patterns cfg_dot) = true
  /\ str_of_path (descend (Path_of ".") ["a"; "README"])
       ∈ (new_copies st_dot (create_backup fs_dot clk0 "docs" st_dot).2).*1.
Proof.
  split; [reflexivity|].
  apply (bool_decide_unpack _). vm_compute. exact I.
Qed.

(** ** The counter of files *)

(** After a run that returns, the counter of files is the number of copies
    made by the run. *)
Lemma create_backup_counter fs clk config_name config s b :
  configs s !! config_name = Some config ->
  (create_backup fs clk config_name s).1 = Ok b ->
  files_backed_up (create_backup fs clk config_name s).2
  = Z.of_nat (length (new_copies s (create_backup fs clk config_name s).2)).
Proof.
  intros Hc Hb.
  destruct (create_backup_cases fs clk config_name config s Hc)
    as [[_ [e He]]|(s1 & s2 & H1 & H2 & H3 & H4 & H5 & Hinv & Hv & _)]; [congruence|].
  destruct Hv as (_ & _ & Hcp & _ & Hn).
  destruct Hinv as (new & errs & ci0 & ci & _ & Hnewc & _ & Hcount & _).
  rewrite (copies_new_copies s _ (map (copy_of (snapshot_path config config_name clk)) new))
    by (by rewrite Hcp, Hnewc, H3).
  rewrite Hn, Hcount, H5, length_map. lia.
Qed.

(** C9. With the empty string among the exclude patterns every path is
    excluded, the empty string occurring in every string: a run of the
    backup set makes no copy, and when it returns its counter of files is
    zero. *)
Theorem empty_pattern_excludes_all (fs : filesystem) (clk : clock) (config_name : string)
    (s : state) (config : BackupConfig) (patterns : list string) :
  configs s !! config_name = Some config ->
  exclude_patterns config = Some patterns ->
  "" ∈ patterns ->
  (forall path, should_exclude path (exclude_patterns config) = true)
  /\ new_copies s (create_backup fs clk config_name s).2 = []
  /\ (forall b, (create_backup fs clk config_name s).1 = Ok b ->
                files_backed_up (create_backup fs clk config_name s).2 = 0).
Proof.
  intros Hc Hp Hin.
  assert (Hall : forall path, should_exclude path (exclude_patterns config) = true).
  { intros path. apply should_exclude_true. exists patterns, "". split_and!; try done.
    apply contains_nil. }
  assert (Hnone : new_copies s (create_backup fs clk config_name s).2 = []).
  { destruct (new_copies s _) as [|[src dst] l] eqn:E; [done|].
    destruct (create_backup_new_copies fs clk config_name config s src dst Hc)
      as (v & _ & Hex & _); [rewrite E; left|].
    by rewrite Hall in Hex. }
  split_and!; try done.
  intros b Hb. by rewrite (create_backup_counter fs clk config_name config s b Hc Hb), Hnone.
Qed.

Lemma empty_pattern_excludes_all_witness :
  (create_backup fs_docs clk0 "docs" st_empty_pattern).1 = Ok true
  /\ new_copies st_empty_pattern (create_backup fs_docs clk0 "docs" st_empty_pattern).2 = []
  /\ files_backed_up (create_backup fs_docs clk0 "docs" st_empty_pattern).2 = 0.
Proof.
  pose proof (empty_pattern_excludes_all fs_docs clk0 "docs" st_empty_pattern
                cfg_empty_pattern ["cache"; ""] eq_refl eq_refl) as H.
  destruct H as (_ & Hnone & Hzero).
  - apply (bool_decide_unpack _). vm_compute. exact I.
  - split; [by vm_compute|]. split; [exact Hnone|]. apply (Hzero true). by vm_compute.
Defined.

(** ** Files that cannot be read *)


Lemma get_file_info_hash fs filepath :
  get_file_info fs filepath !! "hash"
  = match fs_stat fs (str_of_path filepath) with
    | Some _ => Some (VStr (calculate_file_hash fs filepath))
    | None => None
    end.
Proof.
  unfold get_file_info. destruct (fs_stat fs _); [|done].
  do 2 (rewrite lookup_insert_ne by done). by rewrite lookup_insert_eq.
Qed.




(** ** A snapshot directory that exists already *)

Lemma listing_lookup s dir n e :
  listing s dir !! n = Some e ->
  exists l, dest_fs s !! dir = Some l /\ l !! n = Some e.
Proof.
  unfold listing. destruct (dest_fs s !! dir) as [l|]; simpl; [|by rewrite lookup_empty].
  intros H. by exists l.
Qed.

(** A successful copy adds the file to the content of the snapshot
    directory and keeps what the directory held. *)
Lemma copy2_merges fs clk dest_path filepath dest_file_path s t content :
  listing s (str_of_path (path_parent dest_path)) !! path_name dest_path
    = Some (EDir t content) ->
  copy_ok fs filepath dest_file_path = true ->
  (copy2 fs clk dest_path filepath dest_file_path s).1 = Ok tt
  /\ listing (copy2 fs clk dest_path filepath dest_file_path s).2
       (str_of_path (path_parent dest_path)) !! path_name dest_path
     = Some (EDir (time clk)
               ({[ str_of_path (relative_to dest_file_path dest_path) ]} ∪ content)).
Proof.
  intros (l & Hl & He)%listing_lookup Hok. unfold copy2, copy_ok in *.
  destruct (fs_read fs _); [|done]. destruct (fs_stat fs _); [|done]. rewrite Hok.
  split; [done|]. unfold listing. simpl.
  by rewrite lookup_alter_eq, Hl; simpl; rewrite lookup_alter_eq, He.
Qed.

(** C7, as the program has it. When the directory of the snapshot exists
    already, [mkdir(parents=True, exist_ok=True)] accepts it as it is: the
    run does not stop there and takes no other name. Every file the run
    copies goes under that same directory and is added to what the
    directory holds. *)
Theorem existing_snapshot_is_reused (fs : filesystem) (clk : clock) (config_name : string)
    (config : BackupConfig) (s : state) (t : Z) (content : gset string) :
  let dest_path := snapshot_path config config_name clk in
  configs s !! config_name = Some config ->
  listing s (str_of_path (path_parent dest_path)) !! path_name dest_path
    = Some (EDir t content) ->
  mkdir_snapshot fs clk dest_path s = (Ok tt, s)
  /\ can_make_snapshot fs s dest_path = true
  /\ (forall src dst,
        (src, dst) ∈ new_copies s (create_backup fs clk config_name s).2 ->
        exists v, (src, dst) = copy_of dest_path v)
  /\ (forall filepath dest_file_path,
        copy_ok fs filepath dest_file_path = true ->
        listing (copy2 fs clk dest_path filepath dest_file_path s).2
          (str_of_path (path_parent dest_path)) !! path_name dest_path
        = Some (EDir (time clk)
                  ({[ str_of_path (relative_to dest_file_path dest_path) ]} ∪ content))).
Proof.
  intros dest_path Hc He. split_and!.
  - unfold mkdir_snapshot. rewrite bind_gets. fold dest_path. by rewrite He.
  - unfold can_make_snapshot. by rewrite He.
  - intros src dst Hin.
    destruct (create_backup_new_copies fs clk config_name config s src dst Hc Hin)
      as (v & Hv & _). by exists v.
  - intros filepath dest_file_path Hok.
    by apply (copy2_merges fs clk dest_path filepath dest_file_path s t content).
Qed.

Lemma existing_snapshot_is_reused_witness :
  mkdir_snapshot fs_docs clk0 (snapshot_path cfg_plain "docs" clk0) st_same_second
  = (Ok tt, st_same_second).
Proof.
  refine (proj1 (existing_snapshot_is_reused fs_docs clk0 "docs" cfg_plain st_same_second
                   900 {[ "old/unrelated.txt" ]} _ _)); by vm_compute.
Defined.

(** C7, as stated, fails: with a directory of the snapshot's name in place,
    the run returns [True] without having raised, creates no entry under
    another name, and leaves in that one directory the file it held
    together with the files just copied. *)
Lemma same_second_run_merges :
  let r := create_backup fs_docs clk0 "docs" st_same_second in
  listing st_same_second "/bak" !! "docs_20240101_000000"
    = Some (EDir 900 {[ "old/unrelated.txt" ]})
  /\ r.1 = Ok true
  /\ listing r.2 "/bak"
     = {[ "docs_20240101_000000" :=
            EDir 1000 ({[ "src/sub/c.txt" ]} ∪ ({[ "src/a.txt" ]} ∪ {[ "old/unrelated.txt" ]})) ]}.
Proof. split_and!; reflexivity. Qed.

(** ** Retention *)

Section sorting_by_mtime.

Lemma insert_by_mtime_perm x l : insert_by_mtime x l ≡ₚ x :: l.
Proof.
  induction l as [|y l IH]; simpl; [done|].
  destruct (_ <? _)%Z; [|done]. rewrite IH. apply Permutation_swap.
Qed.

Lemma sort_by_mtime_desc_perm l : sort_by_mtime_desc l ≡ₚ l.
Proof.
  induction l as [|x l IH]; simpl; [done|].
  by rewrite insert_by_mtime_perm, IH.
Qed.

Lemma insert_by_mtime_sorted x l :
  StronglySorted not_older l -> StronglySorted not_older (insert_by_mtime x l).
Proof.
  induction l as [|y l IH]; intros Hl; simpl.
  - repeat constructor.
  - apply StronglySorted_cons in Hl as [Hy Hl].
    destruct (entry_mtime x.2 <? entry_mtime y.2)%Z eqn:E.
    + apply Z.ltb_lt in E. apply StronglySorted_cons. split; [|by apply IH].
      rewrite insert_by_mtime_perm. constructor; [unfold not_older; lia|done].
    + apply Z.ltb_ge in E. apply StronglySorted_cons. split.
      * constructor; [done|]. eapply Forall_impl; [done|].
        intros z Hz. unfold not_older in *. lia.
      * apply StronglySorted_cons. by split.
Qed.

Lemma sort_by_mtime_desc_sorted l : StronglySorted not_older (sort_by_mtime_desc l).
Proof.
  induction l as [|x l IH]; simpl; [constructor|]. by apply insert_by_mtime_sorted.
Qed.

(** The sort is stable: of two entries with the same modification time the
    one listed first stays first. *)
Lemma insert_by_mtime_stable x l :
  Forall (fun y => entry_mtime y.2 <= entry_mtime x.2)%Z l ->
  insert_by_mtime x l = x :: l.
Proof.
  destruct l as [|y l]; [done|]. intros [Hy _]%Forall_cons. simpl.
  by rewrite (proj2 (Z.ltb_ge _ _) Hy).
Qed.

Lemma slice_from_nat {A} (m : nat) (l : list A) : slice_from (Z.of_nat m) l = drop m l.
Proof.
  unfold slice_from. destruct (Z.of_nat m <? 0)%Z eqn:E; [apply Z.ltb_lt in E; lia|].
  by rewrite Nat2Z.id.
Qed.

End sorting_by_mtime.

Section cleanup.

Context (fs : filesystem).

Lemma remove_backup_removes dest_dir item s :
  fs_remove_ok fs (str_of_path (child dest_dir item.1)) = true ->
  remove_backup fs dest_dir item s
  = (Ok tt,
     add_log (Info_removed (str_of_path (child dest_dir item.1)))
       (add_effect (removal_op dest_dir item)
          (set_dest_fs (alter (delete item.1) (str_of_path dest_dir)) s))).
Proof.
  intros Hok. unfold remove_backup, removal_op, try_except, rmtree, unlink, remove_entry.
  rewrite path_parent_child, path_name_child, Hok.
  by destruct (is_dir item.2).
Qed.

(** The removal loop, when every removal succeeds: the entries are gone
    from the listing, one operation is recorded for each, and the other
    directories are as they were. *)
Lemma cleanup_loop dest_dir items s l :
  (forall item, item ∈ items -> fs_remove_ok fs (str_of_path (child dest_dir item.1)) = true) ->
  dest_fs s !! str_of_path dest_dir = Some l ->
  (for_each items (remove_backup fs dest_dir) s).1 = Ok tt
  /\ dest_fs (for_each items (remove_backup fs dest_dir) s).2 !! str_of_path dest_dir
     = Some (without items l)
  /\ effects (for_each items (remove_backup fs dest_dir) s).2
     = (effects s ++ map (removal_op dest_dir) items)%list.
Proof.
  revert s l. induction items as [|item items IH]; intros s l Hok Hl; simpl.
  - by rewrite app_nil_r.
  - unfold bind. rewrite remove_backup_removes by (apply Hok; left).
    set (s1 := add_log _ _).
    destruct (IH s1 (delete item.1 l)) as (Hr & Hd & He).
    + intros x Hx. apply Hok. by right.
    + unfold s1. simpl. by rewrite lookup_alter_eq, Hl.
    + split_and!; try done. rewrite He. unfold s1. simpl. by rewrite <- app_assoc.
Qed.

Lemma without_lookup items (l : gmap string entry) n :
  without items l !! n = if decide (n ∈ items.*1) then None else l !! n.
Proof.
  revert l. induction items as [|item items IH]; intros l; simpl.
  - done.
  - rewrite IH. destruct (decide (n ∈ items.*1)) as [Hin|Hin].
    + rewrite decide_True; [done|by right].
    + destruct (decide (n = item.1)) as [->|Hne].
      * rewrite decide_True by left. apply lookup_delete_eq.
      * rewrite decide_False by (rewrite not_elem_of_cons; done).
        by apply lookup_delete_ne.
Qed.

Lemma elem_of_backups_of config (l : gmap string entry) n e :
  (n, e) ∈ backups_of config l
  <-> l !! n = Some e /\ PyStr.startswith n (name config ++ "_") = true.
Proof.
  unfold backups_of. rewrite list_elem_of_In, filter_In, <- list_elem_of_In.
  by rewrite elem_of_map_to_list.
Qed.

Lemma NoDup_fst_filter {A B} (f : A * B -> bool) (l : list (A * B)) :
  NoDup l.*1 -> NoDup (List.filter f l).*1.
Proof.
  induction l as [|x l IH]; simpl; [done|].
  intros [Hx Hl]%NoDup_cons. destruct (f x); simpl; [|by apply IH].
  apply NoDup_cons. split; [|by apply IH].
  intros (y & Hy & Hin)%list_elem_of_fmap. apply Hx. apply list_elem_of_fmap.
  exists y. split; [done|].
  apply list_elem_of_In in Hin. apply filter_In in Hin as [Hin _]. by apply list_elem_of_In.
Qed.

Lemma NoDup_backups_of config (l : gmap string entry) : NoDup (backups_of config l).*1.
Proof. apply NoDup_fst_filter, NoDup_fst_map_to_list. Qed.

End cleanup.

(** Pruning with a cap [m] that is exceeded, when every removal succeeds:
    of the snapshots sorted by modification time, newest first, the first
    [m] stay and the others go. *)
Lemma cleanup_old_backups_prunes (fs : filesystem) (config : BackupConfig) (s : state)
    (l : gmap string entry) (m : nat) :
  let dest_dir := Path_of (destination config) in
  let r := cleanup_old_backups fs config s in
  let l' := listing r.2 (str_of_path dest_dir) in
  dest_fs s !! str_of_path dest_dir = Some l ->
  max_backups config = Z.of_nat m ->
  (m < length (backups_of config l))%nat ->
  (forall path, fs_remove_ok fs path = true) ->
  let kept := take m (sort_by_mtime_desc (backups_of config l)) in
  let removed := drop m (sort_by_mtime_desc (backups_of config l)) in
    (kept ++ removed)%list ≡ₚ backups_of config l
    /\ length kept = m
    /\ (forall x y, x ∈ kept -> y ∈ removed -> not_older x y)
    /\ (forall n e, (n, e) ∈ kept
                    <-> l' !! n = Some e /\ PyStr.startswith n (name config ++ "_") = true)
    /\ (forall item, item ∈ removed ->
                     l' !! item.1 = None /\ removal_op dest_dir item ∈ effects r.2)
    /\ (forall n, PyStr.startswith n (name config ++ "_") = false -> l' !! n = l !! n)
    /\ r.1 = Ok tt.
Proof.
  intros dest_dir r l' Hl Hm Hlen Hok kept removed. subst r l' kept removed.
  set (sorted := sort_by_mtime_desc (backups_of config l)).
  assert (Hperm : sorted ≡ₚ backups_of config l) by apply sort_by_mtime_desc_perm.
  assert (Hrun : cleanup_old_backups fs config s
                 = for_each (drop m sorted) (remove_backup fs dest_dir) s).
  { unfold cleanup_old_backups. rewrite bind_gets. fold dest_dir. rewrite Hl. fold sorted.
    rewrite Hm, slice_from_nat.
    rewrite (proj2 (Z.gtb_gt _ _)); [done|]. rewrite Hperm. lia. }
  rewrite Hrun.
  destruct (cleanup_loop fs dest_dir (drop m sorted) s l) as (Hr & Hd & He); [auto|done|].
  assert (Hnd : NoDup ((take m sorted ++ drop m sorted)%list).*1).
  { rewrite take_drop, Hperm. apply NoDup_backups_of. }
  rewrite fmap_app in Hnd. apply NoDup_app in Hnd as (_ & Hdisj & _).
  assert (Hl' : forall n,
    listing (for_each (drop m sorted) (remove_backup fs dest_dir) s).2 (str_of_path dest_dir) !! n
    = if decide (n ∈ (drop m sorted).*1) then None else l !! n).
  { intros n. unfold listing. rewrite Hd. simpl. apply without_lookup. }
  assert (Hin : forall n e, (n, e) ∈ sorted
                <-> l !! n = Some e /\ PyStr.startswith n (name config ++ "_") = true).
  { intros n e. by rewrite Hperm, elem_of_backups_of. }
  fold sorted. split_and!.
  - by rewrite take_drop.
  - rewrite length_take. rewrite Hperm. lia.
  - intros x y Hx Hy.
    apply (StronglySorted_app_1_elem_of not_older (take m sorted) (drop m sorted)); try done.
    rewrite take_drop. apply sort_by_mtime_desc_sorted.
  - intros n e. rewrite Hl'. split.
    + intros Hk. rewrite decide_False.
      * apply Hin. rewrite <- (take_drop m sorted). apply elem_of_app. by left.
      * apply Hdisj. apply list_elem_of_fmap. by exists (n, e).
    + destruct (decide _) as [|Hnot]; [by intros [? _]|]. intros Hne.
      apply Hin in Hne. rewrite <- (take_drop m sorted) in Hne.
      apply elem_of_app in Hne as [?|Hdr]; [done|].
      destruct Hnot. apply list_elem_of_fmap. by exists (n, e).
  - intros item Hitem. split.
    + rewrite Hl'. rewrite decide_True; [done|]. apply list_elem_of_fmap. by exists item.
    + rewrite He. apply elem_of_app. right. apply list_elem_of_fmap. by exists item.
  - intros n Hn. rewrite Hl'. rewrite decide_False; [done|].
    intros ([n' e] & -> & Hitem)%list_elem_of_fmap. simpl in Hn.
    assert ((n', e) ∈ sorted) as Hs.
    { rewrite <- (take_drop m sorted). apply elem_of_app. by right. }
    apply Hin in Hs as [_ Hs]. congruence.
  - done.
Qed.

(** C3. With the cap [m] and more than [m] entries of the destination
    named [{name}_...], and every removal succeeding, pruning leaves
    exactly [m] of them, none of which is older than any removed one; the
    others are gone from the destination, each removed by [rmtree] if it is
    a directory and by [unlink] if it is a file; entries with other names
    are untouched. *)
Theorem retention_keeps_most_recent (fs : filesystem) (config : BackupConfig) (s : state)
    (l : gmap string entry) (m : nat) :
  let dest_dir := Path_of (destination config) in
  let r := cleanup_old_backups fs config s in
  let l' := listing r.2 (str_of_path dest_dir) in
  dest_fs s !! str_of_path dest_dir = Some l ->
  max_backups config = Z.of_nat m ->
  (m < length (backups_of config l))%nat ->
  (forall path, fs_remove_ok fs path = true) ->
  exists kept removed,
    (kept ++ removed)%list ≡ₚ backups_of config l
    /\ length kept = m
    /\ (forall x y, x ∈ kept -> y ∈ removed -> not_older x y)
    /\ (forall n e, (n, e) ∈ kept
                    <-> l' !! n = Some e /\ PyStr.startswith n (name config ++ "_") = true)
    /\ (forall item, item ∈ removed ->
                     l' !! item.1 = None /\ removal_op dest_dir item ∈ effects r.2)
    /\ (forall n, PyStr.startswith n (name config ++ "_") = false -> l' !! n = l !! n)
    /\ r.1 = Ok tt.
Proof.
  intros dest_dir r l' Hl Hm Hlen Hok.
  exists (take m (sort_by_mtime_desc (backups_of config l))),
         (drop m (sort_by_mtime_desc (backups_of config l))).
  by apply cleanup_old_backups_prunes.
Qed.

Lemma retention_keeps_most_recent_witness :
  exists kept removed,
    (kept ++ removed)%list ≡ₚ backups_of cfg_docs bak_listing
    /\ length kept = 3%nat
    /\ (forall x y, x ∈ kept -> y ∈ removed -> not_older x y)
    /\ (forall n e, (n, e) ∈ kept
                    <-> listing (cleanup_old_backups fs_docs cfg_docs st_bak).2
                          (str_of_path (Path_of (destination cfg_docs))) !! n = Some e
                        /\ PyStr.startswith n (name cfg_docs ++ "_") = true)
    /\ (forall item, item ∈ removed ->
          listing (cleanup_old_backups fs_docs cfg_docs st_bak).2
            (str_of_path (Path_of (destination cfg_docs))) !! item.1 = None
          /\ removal_op (Path_of (destination cfg_docs)) item
               ∈ effects (cleanup_old_backups fs_docs cfg_docs st_bak).2)
    /\ (forall n, PyStr.startswith n (name cfg_docs ++ "_") = false ->
          listing (cleanup_old_backups fs_docs cfg_docs st_bak).2
            (str_of_path (Path_of (destination cfg_docs))) !! n = bak_listing !! n)
    /\ (cleanup_old_backups fs_docs cfg_docs st_bak).1 = Ok tt.
Proof.
  apply (retention_keeps_most_recent fs_docs cfg_docs st_bak bak_listing 3).
  - reflexivity.
  - reflexivity.
  - vm_compute. lia.
  - reflexivity.
Defined.

(** An entry with at least [m] strictly newer entries is not among the
    first [m] of the sorted list. *)
Lemma older_entry_in_excess (sorted newer : list (string * entry)) (m : nat) x :
  StronglySorted not_older sorted ->
  x ∈ sorted ->
  NoDup newer ->
  (m <= length newer)%nat ->
  (forall y, y ∈ newer -> y ∈ sorted /\ (entry_mtime x.2 < entry_mtime y.2)%Z) ->
  x ∈ drop m sorted.
Proof.
  intros Hs Hx Hnd Hlen Hnewer.
  rewrite <- (take_drop m sorted) in Hx, Hs.
  apply elem_of_app in Hx as [Hx|Hx]; [exfalso|done].
  assert (Hsub : (x :: newer) ⊆+ take m sorted).
  { apply NoDup_submseteq.
    - apply NoDup_cons. split; [|done]. intros Hin.
      destruct (Hnewer x Hin) as [_ ?]. lia.
    - intros y [->|Hy]%elem_of_cons; [done|].
      destruct (Hnewer y Hy) as [Hys Hlt].
      rewrite <- (take_drop m sorted) in Hys. apply elem_of_app in Hys as [?|Hyd]; [done|].
      pose proof (StronglySorted_app_1_elem_of _ _ _ _ _ Hs Hx Hyd) as Hno.
      unfold not_older in Hno. lia. }
  apply submseteq_length in Hsub. rewrite length_take in Hsub. simpl in Hsub. lia.
Qed.

(** C8. Pruning for a backup set named [X] counts every entry of the
    destination whose name starts with [X_]. A snapshot of another backup
    set whose own name starts with [X_] is such an entry; once at least
    [max_backups] counted entries are strictly newer than it, pruning for
    [X] removes it. *)
Theorem pruning_counts_longer_names (fs : filesystem) (config : BackupConfig) (s : state)
    (l : gmap string entry) (other timestamp : string) (e : entry)
    (newer : list (string * entry)) (m : nat) :
  let dest_dir := Path_of (destination config) in
  let r := cleanup_old_backups fs config s in
  let snapshot := other ++ "_" ++ timestamp in
  PyStr.startswith other (name config ++ "_") = true ->
  dest_fs s !! str_of_path dest_dir = Some l ->
  l !! snapshot = Some e ->
  (forall n' e', (n', e') ∈ backups_of config l
                 <-> l !! n' = Some e' /\ PyStr.startswith n' (name config ++ "_") = true)
  /\ (snapshot, e) ∈ backups_of config l
  /\ (max_backups config = Z.of_nat m ->
      NoDup newer ->
      (m <= length newer)%nat ->
      (forall y, y ∈ newer ->
         y ∈ backups_of config l /\ (entry_mtime e < entry_mtime y.2)%Z) ->
      (forall path, fs_remove_ok fs path = true) ->
      listing r.2 (str_of_path dest_dir) !! snapshot = None
      /\ removal_op dest_dir (snapshot, e) ∈ effects r.2).
Proof.
  intros dest_dir r snapshot Hother Hl He.
  assert (Hin : (snapshot, e) ∈ backups_of config l).
  { apply elem_of_backups_of. split; [done|]. by apply startswith_app. }
  split_and!; [intros; apply elem_of_backups_of|done|].
  intros Hm Hnd Hlen Hnewer Hok.
  set (sorted := sort_by_mtime_desc (backups_of config l)).
  assert (Hperm : sorted ≡ₚ backups_of config l) by apply sort_by_mtime_desc_perm.
  assert (Hex : (snapshot, e) ∈ drop m sorted).
  { apply (older_entry_in_excess sorted newer); try done.
    - apply sort_by_mtime_desc_sorted.
    - by rewrite Hperm.
    - intros y Hy. rewrite Hperm. by apply Hnewer. }
  assert (Hlt : (m < length (backups_of config l))%nat).
  { rewrite <- Hperm. pose proof (length_drop sorted m) as Hd.
    destruct (drop m sorted); [by apply elem_of_nil in Hex|]. simpl in Hd. lia. }
  destruct (cleanup_old_backups_prunes fs config s l m Hl Hm Hlt Hok)
    as (_ & _ & _ & _ & Hrem & _).
  by apply (Hrem (snapshot, e)).
Qed.

Lemma pruning_counts_longer_names_witness :
  listing (cleanup_old_backups fs_docs cfg_docs st_bak).2 "/bak"
    !! "docs_extra_20230102_000000" = None
  /\ OpRmtree "/bak/docs_extra_20230102_000000"
       ∈ effects (cleanup_old_backups fs_docs cfg_docs st_bak).2.
Proof.
  refine (proj2 (proj2 (pruning_counts_longer_names fs_docs cfg_docs st_bak bak_listing
                   "docs_extra" "20230102_000000" (EDir 20 ∅)
                   [("docs_20240104_000000.tar.gz", EFile 400);
                    ("docs_20240105_000000", EDir 500 ∅);
                    ("docs_20240106_000000.tar.gz", EFile 600)] 3 _ _ _)) _ _ _ _ _).
  - reflexivity.
  - reflexivity.
  - reflexivity.
  - reflexivity.
  - apply (bool_decide_unpack _). vm_compute. exact I.
  - simpl. lia.
  - intros y Hy.
    repeat (apply elem_of_cons in Hy as [->|Hy]); try (by apply elem_of_nil in Hy);
      (split; [apply elem_of_backups_of; split; reflexivity|vm_compute; reflexivity]).
  - reflexivity.
Defined.

(** ** Runs that meet no failure on the destination side *)

Section loops_return.

Context (fs : filesystem) (clk : clock) (config : BackupConfig) (config_name : string).
Context (dest_path : Path) (s0 : state).
Hypothesis mkdir_ok : forall d, fs_mkdir_ok fs d = true.

Lemma backup_file_returns source_path root_path file s :
  run_inv fs config config_name dest_path s0 s ->
  (backup_file fs clk config config_name source_path dest_path root_path file s).1 = Ok tt.
Proof.
  intros Hinv.
  set (filepath := child root_path file).
  set (dest_file_path := dest_file_path_of source_path dest_path filepath).
  destruct (should_exclude filepath (exclude_patterns config)) eqn:Hex;
    [by rewrite backup_file_skip; auto|].
  destruct (skip_unchanged fs config (backup_index s) filepath config_name) eqn:Hsk;
    [by rewrite backup_file_skip; auto|].
  destruct Hinv as (new & errs & ci0 & ci & _ & _ & _ & _ & _ & _ & _ & _ & H1 & _).
  destruct (copy_ok fs filepath dest_file_path) eqn:Hok.
  - destruct (backup_file_copies fs clk config config_name source_path dest_path
                root_path file s ci Hex Hsk (mkdir_ok _) Hok H1) as (s' & -> & _). done.
  - destruct (backup_file_copy_fails fs clk config config_name source_path dest_path
                root_path file s Hex Hsk (mkdir_ok _) Hok) as (e & ->). done.
Qed.

Lemma backup_dir_returns source_path step s :
  run_inv fs config config_name dest_path s0 s ->
  (backup_dir fs clk config config_name source_path dest_path step s).1 = Ok tt.
Proof.
  destruct step as [[root_path dirs] files]. unfold backup_dir. intros Hs.
  destruct (should_exclude root_path _); [done|].
  apply (for_each_returns (run_inv fs config config_name dest_path s0)); [|done].
  intros file s' _ Hs'. split; [by apply backup_file_returns|by apply run_inv_backup_file].
Qed.

Lemma backup_source_returns source_dir s :
  is_Some (expanduser fs (Path_of source_dir)) ->
  run_inv fs config config_name dest_path s0 s ->
  (backup_source fs clk config config_name dest_path source_dir s).1 = Ok tt.
Proof.
  intros [source_path Hsp] Hs. unfold backup_source. rewrite Hsp.
  destruct (fs_tree fs _) as [t|]; [|done].
  unfold log. rewrite bind_modify.
  apply (for_each_returns (run_inv fs config config_name dest_path s0)).
  - intros step s' _ Hs'. split; [by apply backup_dir_returns|].
    apply (backup_dir_keeps fs clk config config_name dest_path
             (run_inv fs config config_name dest_path s0)); [|done].
    intros. by apply run_inv_backup_file.
  - by apply run_inv_add_log.
Qed.

Lemma backup_sources_return l s :
  (forall source_dir, source_dir ∈ l -> is_Some (expanduser fs (Path_of source_dir))) ->
  run_inv fs config config_name dest_path s0 s ->
  (for_each l (backup_source fs clk config config_name dest_path) s).1 = Ok tt.
Proof.
  intros Hl Hs.
  apply (for_each_returns (run_inv fs config config_name dest_path s0)); [|done].
  intros source_dir s' Hin Hs'. split; [by apply backup_source_returns; auto|].
  apply (backup_source_keeps fs clk config config_name dest_path
           (run_inv fs config config_name dest_path s0)); try done.
  - intros. by apply run_inv_backup_file.
  - intros. by apply run_inv_add_log.
  - intros. by apply run_inv_add_log.
Qed.

End loops_return.

(** ** Every file that is due is copied or reported *)

Section settle.

Context (fs : filesystem) (clk : clock) (config : BackupConfig) (config_name : string).
Context (dest_path : Path) (s0 : state).

(** The four ways in which the round of a file ends. *)
Lemma backup_file_step source_path root_path file s :
  run_inv fs config config_name dest_path s0 s ->
  let filepath := child root_path file in
  let r := backup_file fs clk config config_name source_path dest_path root_path file s in
  (r = (Ok tt, s)
   /\ (should_exclude filepath (exclude_patterns config) = true
       \/ skip_unchanged fs config (backup_index s) filepath config_name = true))
  \/ r = (Raise PermissionError, s)
  \/ (r.1 = Ok tt /\ copies r.2 = copies s
      /\ copy_errors r.2 = (copy_errors s ++ [str_of_path filepath])%list)
  \/ (r.1 = Ok tt /\ copy_errors r.2 = copy_errors s
      /\ copies r.2 = (copies s ++ [copy_of dest_path (source_path, filepath)])%list).
Proof.
  intros Hinv filepath r. subst r.
  set (dest_file_path := dest_file_path_of source_path dest_path filepath).
  destruct (should_exclude filepath (exclude_patterns config)) eqn:Hex;
    [left; split; [apply backup_file_skip|]; auto|].
  destruct (skip_unchanged fs config (backup_index s) filepath config_name) eqn:Hsk;
    [left; split; [apply backup_file_skip|]; auto|].
  right.
  destruct (fs_mkdir_ok fs (str_of_path (path_parent dest_file_path))) eqn:Hmk;
    [right|left; by apply backup_file_mkdir_fails].
  destruct Hinv as (new & errs & ci0 & ci & _ & _ & _ & _ & _ & _ & _ & _ & H1 & _).
  destruct (copy_ok fs filepath dest_file_path) eqn:Hok.
  - right.
    destruct (backup_file_copies fs clk config config_name source_path dest_path
                root_path file s ci Hex Hsk Hmk Hok H1)
      as (s' & -> & _ & _ & Hcp & Her & _). by split_and!.
  - left.
    destruct (backup_file_copy_fails fs clk config config_name source_path dest_path
                root_path file s Hex Hsk Hmk Hok) as (e & ->).
    split_and!; try done. simpl. apply copy_errors_add_log_error.
Qed.

Lemma run_inv_lengths s :
  run_inv fs config config_name dest_path s0 s ->
  (length (copies s0) <= length (copies s))%nat
  /\ (length (copy_errors s0) <= length (copy_errors s))%nat.
Proof.
  intros (new & errs & ci0 & ci & _ & -> & -> & _). rewrite !length_app. lia.
Qed.

(** A file found in [s] among the new copies or the new failures is
    still there after any round. *)
Lemma settled_stable p source_path root_path file s :
  run_inv fs config config_name dest_path s0 s ->
  p ∈ (new_copies s0 s).*1 \/ p ∈ new_copy_errors s0 s ->
  let s' := (backup_file fs clk config config_name source_path dest_path root_path file s).2 in
  p ∈ (new_copies s0 s').*1 \/ p ∈ new_copy_errors s0 s'.
Proof.
  intros Hinv Hp s'. subst s'.
  destruct (run_inv_lengths s Hinv) as [Hlc Hle].
  destruct (backup_file_step source_path root_path file s Hinv)
    as [[-> _]|[->|[(_ & Hc & He)|(_ & He & Hc)]]]; try done;
    unfold new_copies, new_copy_errors in *; rewrite Hc, He.
  - destruct Hp as [?|Hp]; [by left|right].
    rewrite drop_app_le by done. apply elem_of_app. by left.
  - destruct Hp as [Hp|?]; [left|by right].
    rewrite drop_app_le by done. rewrite fmap_app. apply elem_of_app. by left.
Qed.

(** After loops that return, every visited file that was due by the index
    at their start has been copied or has had its failure logged. *)
Lemma run_loops_settle s1 :
  s1 = s0 ->
  dest_path = snapshot_path config config_name clk ->
  run_inv fs config config_name dest_path s0 s1 ->
  (run_loops fs clk config config_name s1).1 = Ok tt ->
  forall source_path filepath,
    visited fs config source_path filepath ->
    skip_unchanged fs config (backup_index s0) filepath config_name = false ->
    str_of_path filepath ∈ (new_copies s0 (run_loops fs clk config config_name s1).2).*1
    \/ str_of_path filepath ∈ new_copy_errors s0 (run_loops fs clk config config_name s1).2.
Proof.
  intros -> Hdp Hinv Hok. unfold run_loops in *. rewrite <- Hdp in *.
  refine (backup_sources_establish fs clk config config_name dest_path s0
            (fun _ fp s =>
               skip_unchanged fs config (backup_index s0) fp config_name = false ->
               str_of_path fp ∈ (new_copies s0 s).*1 \/ str_of_path fp ∈ new_copy_errors s0 s)
            _ _ _ _ s0 Hinv Hok).
  - intros _ fp source_path root_path file s Hs Hfp Hdue. by apply settled_stable; auto.
  - intros _ fp p s Hfp Hdue. specialize (Hfp Hdue).
    unfold new_copy_errors, copy_errors. simpl. rewrite omap_app. simpl.
    by rewrite app_nil_r.
  - intros _ fp p s Hfp Hdue. specialize (Hfp Hdue).
    unfold new_copy_errors, copy_errors. simpl. rewrite omap_app. simpl.
    by rewrite app_nil_r.
  - intros source_path root_path file s Hs Hex Hr Hdue.
    destruct (run_inv_lengths s Hs) as [Hlc Hle].
    destruct (backup_file_step source_path root_path file s Hs)
      as [[Heq [Hex'|Hsk]]|[Heq|[(_ & Hc & He)|(_ & He & Hc)]]].
    + congruence.
    + rewrite Heq. simpl. left.
      destruct Hs as (new & errs & ci0 & ci & _ & Hcp & _ & _ & _ & _ & _ & H0 & H1 & Hold & _).
      rewrite (copies_new_copies s0 s _ Hcp).
      destruct (decide (str_of_path (child root_path file)
                        ∈ map (fun v : Path * Path => str_of_path v.2) new)) as [Hin|Hin].
      * apply list_elem_of_fmap in Hin as (v & Hv & Hvin). apply list_elem_of_fmap.
        exists (copy_of dest_path v). split; [done|]. apply list_elem_of_fmap. by exists v.
      * exfalso.
        rewrite (skip_unchanged_ext fs config config_name (backup_index s0) (backup_index s)
                   (child root_path file) (child root_path file) eq_refl) in Hdue;
          [congruence|].
        rewrite H0, H1. simpl. symmetry. by apply Hold.
    + rewrite Heq in Hr. done.
    + right. unfold new_copy_errors. rewrite He, drop_app_le by done.
      apply elem_of_app. right. by left.
    + left. unfold new_copies. rewrite Hc, drop_app_le by done.
      rewrite fmap_app. apply elem_of_app. right. by left.
Qed.

End settle.

Section sound_runs.

Context (fs : filesystem) (clk : clock) (config_name : string) (config : BackupConfig).

(** With nothing failing on the destination side a run goes through its
    loops and returns [True]. *)
Lemma create_backup_sound s :
  configs s !! config_name = Some config ->
  destination_sound fs clk config config_name s ->
  let r := create_backup fs clk config_name s in
  exists s1 s2,
    configs s1 = configs s
    /\ backup_index s1 = prepared config_name (backup_index s)
    /\ copies s1 = copies s
    /\ copy_errors s1 = copy_errors s
    /\ files_backed_up s1 = 0
    /\ run_inv fs config config_name (snapshot_path config config_name clk) s1 s1
    /\ run_inv fs config config_name (snapshot_path config config_name clk) s1 s2
    /\ run_loops fs clk config config_name s1 = (Ok tt, s2)
    /\ same_view s2 r.2
    /\ r.1 = Ok true.
Proof.
  intros Hc (Hmk & Hdirs & Hhome & Hsave) r. subst r.
  destruct (create_backup_run fs clk config_name config s Hc Hmk)
    as (s1 & H1 & H2 & H3 & H4 & H5 & Hrun).
  assert (Hinv0 : run_inv fs config config_name (snapshot_path config config_name clk) s1 s1).
  { unfold prepared in H2. destruct (backup_index s !! config_name) as [ci|] eqn:E.
    - apply (run_inv_refl _ _ _ _ _ ci). by rewrite H2.
    - apply (run_inv_refl _ _ _ _ _ ∅). by rewrite H2, lookup_insert_eq. }
  pose proof (backup_sources_return fs clk config config_name _ s1 Hdirs
                (source_dirs config) s1 Hhome Hinv0) as Hret.
  pose proof (run_inv_sources fs clk config config_name _ s1 (source_dirs config) s1 Hinv0)
    as Hinv.
  fold (run_loops fs clk config config_name) in Hret, Hinv.
  destruct (run_loops fs clk config config_name s1) as [r2 s2] eqn:El.
  simpl in Hret, Hinv. subst r2.
  destruct Hrun as [Hv Hr]. rewrite Hsave in Hr.
  exists s1, s2. by split_and!.
Qed.

Lemma copy_ok_ext p q d :
  str_of_path p = str_of_path q -> copy_ok fs p d = copy_ok fs q d.
Proof. unfold copy_ok. by intros ->. Qed.

End sound_runs.

(** X1. When nothing fails on the destination side, a run returns [True]
    whatever copies fail. Its counter of files is the number of copies it
    made, each of them a successful copy of a file that was due; each
    failure it logged is a failed copy of a file that was due. A due file
    whose copy fails has its failure logged and is not among the copies; a
    due file whose copy succeeds is copied and no failure is logged for it,
    whichever other files fail. *)
Theorem copy_failure_does_not_abort (fs : filesystem) (clk : clock) (config_name : string)
    (config : BackupConfig) (s : state) :
  let r := create_backup fs clk config_name s in
  let dest_path := snapshot_path config config_name clk in
  configs s !! config_name = Some config ->
  destination_sound fs clk config config_name s ->
  r.1 = Ok true
  /\ files_backed_up r.2 = Z.of_nat (length (new_copies s r.2))
  /\ (forall c, c ∈ new_copies s r.2 ->
        exists v, c = copy_of dest_path v
                  /\ attempted fs config config_name dest_path (backup_index s) true v)
  /\ (forall p, p ∈ new_copy_errors s r.2 ->
        exists v, p = str_of_path v.2
                  /\ attempted fs config config_name dest_path (backup_index s) false v)
  /\ (forall source_path filepath,
        visited fs config source_path filepath ->
        skip_unchanged fs config (backup_index s) filepath config_name = false ->
        ((forall d, copy_ok fs filepath d = false) ->
           str_of_path filepath ∈ new_copy_errors s r.2
           /\ str_of_path filepath ∉ (new_copies s r.2).*1)
        /\ ((forall d, copy_ok fs filepath d = true) ->
              str_of_path filepath ∈ (new_copies s r.2).*1
              /\ str_of_path filepath ∉ new_copy_errors s r.2)).
Proof.
  intros r dest_path Hc Hsound. subst r.
  destruct (create_backup_sound fs clk config_name config s Hc Hsound)
    as (s1 & s2 & H1 & H2 & H3 & H4 & H5 & Hinv0 & Hinv & Hloops & Hv & Hr).
  fold dest_path in Hinv0, Hinv.
  pose proof (run_loops_settle fs clk config config_name dest_path s1 s1 eq_refl eq_refl Hinv0)
    as Hsettle.
  rewrite Hloops in Hsettle. simpl in Hsettle. specialize (Hsettle eq_refl).
  destruct Hv as (_ & _ & Hcp & Her & Hn).
  destruct Hinv as (new & errs & ci0 & ci & _ & Hnewc & Hnewe & Hcount & Hnew & Herrs & _).
  assert (Hnc : new_copies s (create_backup fs clk config_name s).2
                = map (copy_of dest_path) new).
  { apply copies_new_copies. by rewrite Hcp, Hnewc, H3. }
  assert (Hne : new_copy_errors s (create_backup fs clk config_name s).2
                = map (fun v : Path * Path => str_of_path v.2) errs).
  { apply copy_errors_new. by rewrite Her, Hnewe, H4. }
  assert (Hnc1 : new_copies s1 s2 = map (copy_of dest_path) new)
    by by apply copies_new_copies.
  assert (Hne1 : new_copy_errors s1 s2 = map (fun v : Path * Path => str_of_path v.2) errs)
    by by apply copy_errors_new.
  rewrite Hnc1, Hne1 in Hsettle. rewrite Hnc, Hne.
  assert (Hatt : forall ok v,
    attempted fs config config_name dest_path (backup_index s1) ok v ->
    attempted fs config config_name dest_path (backup_index s) ok v).
  { intros ok v (? & Hsk & ?). split_and!; try done.
    by rewrite H2, skip_unchanged_prepared in Hsk. }
  rewrite Forall_forall in Hnew, Herrs.
  assert (Hcopied : forall filepath,
    str_of_path filepath ∈ (map (copy_of dest_path) new).*1 ->
    exists d, copy_ok fs filepath d = true).
  { intros filepath (c & Hfp & (v & -> & Hin)%list_elem_of_fmap)%list_elem_of_fmap.
    destruct (Hnew v Hin) as (_ & _ & Hok). eexists.
    by rewrite (copy_ok_ext fs filepath v.2 _ Hfp). }
  assert (Hfailed : forall filepath,
    str_of_path filepath ∈ map (fun v : Path * Path => str_of_path v.2) errs ->
    exists d, copy_ok fs filepath d = false).
  { intros filepath (v & Hfp & Hin)%list_elem_of_fmap.
    destruct (Herrs v Hin) as (_ & _ & Hok). eexists.
    by rewrite (copy_ok_ext fs filepath v.2 _ Hfp). }
  split_and!.
  - done.
  - rewrite Hn, Hcount, H5, length_map. lia.
  - intros c (v & -> & Hin)%list_elem_of_fmap. exists v. split; [done|]. by apply Hatt, Hnew.
  - intros p (v & -> & Hin)%list_elem_of_fmap. exists v. split; [done|]. by apply Hatt, Herrs.
  - intros source_path filepath Hvis Hdue.
    rewrite <- (skip_unchanged_prepared fs config_name config), <- H2 in Hdue.
    specialize (Hsettle source_path filepath Hvis Hdue). split.
    + intros Hfail.
      assert (Hnot : str_of_path filepath ∉ (map (copy_of dest_path) new).*1).
      { intros [d Hd]%Hcopied. by rewrite Hfail in Hd. }
      split; [|done]. by destruct Hsettle.
    + intros Hgood.
      assert (Hnot : str_of_path filepath ∉ map (fun v : Path * Path => str_of_path v.2) errs).
      { intros [d Hd]%Hfailed. by rewrite Hgood in Hd. }
      split; [|done]. by destruct Hsettle.
Qed.

Lemma destination_sound_docs : destination_sound fs_docs clk0 cfg_docs "docs" st_docs.
Proof.
  split_and!; try done.
  intros source_dir ->%list_elem_of_singleton. by eexists.
Qed.

Lemma visited_docs_b : visited fs_docs cfg_docs (Path_of "/src") (Path_of "/src/b.txt").
Proof.
  exists "/src", (Dir ["a.txt"; "b.txt"]
                      [("cache", Dir ["tmp.bin"] [("deep", Dir ["x.bin"] [])]);
                       ("sub", Dir ["c.txt"] [])]),
    (Path_of "/src"), ["cache"; "sub"], ["a.txt"; "b.txt"], "b.txt".
  split_and!; try done.
  - by left.
  - by left.
  - right. by left.
Qed.

Lemma copy_failure_does_not_abort_witness :
  (create_backup fs_docs clk0 "docs" st_docs).1 = Ok true
  /\ files_backed_up (create_backup fs_docs clk0 "docs" st_docs).2
     = Z.of_nat (length (new_copies st_docs (create_backup fs_docs clk0 "docs" st_docs).2))
  /\ "/src/b.txt" ∈ new_copy_errors st_docs (create_backup fs_docs clk0 "docs" st_docs).2
  /\ "/src/b.txt" ∉ (new_copies st_docs (create_backup fs_docs clk0 "docs" st_docs).2).*1.
Proof.
  destruct (copy_failure_does_not_abort fs_docs clk0 "docs" cfg_docs st_docs eq_refl
              destination_sound_docs) as (Hr & Hn & _ & _ & Hdue).
  destruct (Hdue (Path_of "/src") (Path_of "/src/b.txt") visited_docs_b eq_refl) as [Hfail _].
  destruct Hfail as [Hlog Hnot]; [done|].
  by split_and!.
Defined.

(** The run of [cfg_ten]: nine files copied, the failure of the tenth
    logged, [True] returned. *)
Example nine_of_ten_copied :
  (create_backup fs_ten clk0 "ten" st_ten).1 = Ok true
  /\ files_backed_up (create_backup fs_ten clk0 "ten" st_ten).2 = 9
  /\ new_copy_errors st_ten (create_backup fs_ten clk0 "ten" st_ten).2 = ["/data/f3"].
Proof. by vm_compute. Qed.

(** ** Running again *)

Section rerun.

Context (fs : filesystem) (clk : clock) (config : BackupConfig) (config_name : string).
Context (dest_path : Path).
Hypothesis incremental_on : incremental config = true.
Hypothesis stable : copy_outcome_stable fs.

Lemma copy_ok_stable filepath d d' : copy_ok fs filepath d = copy_ok fs filepath d'.
Proof.
  unfold copy_ok. destruct (fs_read fs _); [|done]. destruct (fs_stat fs _); [|done].
  apply stable.
Qed.

(** The round of a file that is passed over, or whose copy fails, leaves
    index, copies, counter and configurations as they are. *)
Lemma backup_file_idle source_path root_path file s :
  let filepath := child root_path file in
  let s' := (backup_file fs clk config config_name source_path dest_path root_path file s).2 in
  should_exclude filepath (exclude_patterns config) = true
  \/ at_rest fs config config_name (backup_index s) filepath ->
  backup_index s' = backup_index s /\ copies s' = copies s
  /\ files_backed_up s' = files_backed_up s /\ configs s' = configs s.
Proof.
  intros filepath s' H. subst s'.
  set (dest_file_path := dest_file_path_of source_path dest_path filepath).
  destruct (should_exclude filepath (exclude_patterns config)) eqn:Hex;
    [by rewrite backup_file_skip; auto|].
  destruct (skip_unchanged fs config (backup_index s) filepath config_name) eqn:Hsk;
    [by rewrite backup_file_skip; auto|].
  unfold at_rest in H. destruct H as [?|[?|Hok]]; [done|congruence|].
  destruct (fs_mkdir_ok fs (str_of_path (path_parent dest_file_path))) eqn:Hmk;
    [|by rewrite backup_file_mkdir_fails].
  destruct (backup_file_copy_fails fs clk config config_name source_path dest_path
              root_path file s Hex Hsk Hmk (Hok dest_file_path)) as (e & ->). done.
Qed.

(** The round of a file changes the index, if at all, by storing the fresh
    record of that file. *)
Lemma backup_file_index s0 source_path root_path file s :
  run_inv fs config config_name dest_path s0 s ->
  let filepath := child root_path file in
  let s' := (backup_file fs clk config config_name source_path dest_path root_path file s).2 in
  backup_index s' = backup_index s
  \/ exists ci, backup_index s !! config_name = Some ci
                /\ backup_index s'
                   = <[config_name := <[str_of_path filepath := get_file_info fs filepath]> ci]>
                       (backup_index s).
Proof.
  intros Hinv filepath s'. subst s'.
  set (dest_file_path := dest_file_path_of source_path dest_path filepath).
  destruct (copy_ok fs filepath dest_file_path) eqn:Hok.
  2: { left. refine (proj1 (backup_file_idle source_path root_path file s _)).
       right. right. intros d. rewrite (copy_ok_stable _ d dest_file_path). exact Hok. }
  destruct (should_exclude filepath (exclude_patterns config)) eqn:Hex;
    [left; by rewrite backup_file_skip; auto|].
  destruct (skip_unchanged fs config (backup_index s) filepath config_name) eqn:Hsk;
    [left; by rewrite backup_file_skip; auto|].
  destruct (fs_mkdir_ok fs (str_of_path (path_parent dest_file_path))) eqn:Hmk;
    [|left; by rewrite backup_file_mkdir_fails].
  destruct Hinv as (new & errs & ci0 & ci & _ & _ & _ & _ & _ & _ & _ & _ & H1 & _).
  destruct (backup_file_copies fs clk config config_name source_path dest_path
              root_path file s ci Hex Hsk Hmk Hok H1) as (s' & -> & _ & Hidx & _).
  right. by exists ci.
Qed.

(** Storing the fresh record of a file leaves every file that was at rest
    at rest, and puts that file at rest. *)
Lemma at_rest_store idx ci q p :
  idx !! config_name = Some ci ->
  at_rest fs config config_name idx p \/ str_of_path p = str_of_path q ->
  at_rest fs config config_name
    (<[config_name := <[str_of_path q := get_file_info fs q]> ci]> idx) p.
Proof.
  intros Hci Hp.
  destruct (decide (str_of_path p = str_of_path q)) as [E|E].
  - left. unfold skip_unchanged. rewrite incremental_on. simpl. apply negb_true_iff.
    apply (should_backup_file_fresh fs config_name _
             (<[str_of_path q := get_file_info fs q]> ci)); [by rewrite lookup_insert_eq|].
    rewrite E, lookup_insert_eq. f_equal. by apply get_file_info_ext.
  - destruct Hp as [[Hsk|Hfail]|?]; [left|by right|done].
    rewrite <- Hsk. apply skip_unchanged_ext; [done|].
    rewrite lookup_insert_eq, Hci. simpl. by rewrite lookup_insert_ne.
Qed.

(** After loops that return, every visited file is at rest. *)
Lemma run_loops_at_rest s0 :
  dest_path = snapshot_path config config_name clk ->
  run_inv fs config config_name dest_path s0 s0 ->
  (run_loops fs clk config config_name s0).1 = Ok tt ->
  forall source_path filepath,
    visited fs config source_path filepath ->
    at_rest fs config config_name
      (backup_index (run_loops fs clk config config_name s0).2) filepath.
Proof.
  intros Hdp Hinv Hok. unfold run_loops in *. rewrite <- Hdp in *.
  refine (backup_sources_establish fs clk config config_name dest_path s0
            (fun _ fp s => at_rest fs config config_name (backup_index s) fp)
            _ _ _ _ s0 Hinv Hok).
  - intros _ fp source_path root_path file s Hs Hfp.
    destruct (backup_file_index s0 source_path root_path file s Hs) as [E|(ci & Hci & E)];
      rewrite E; [done|]. apply at_rest_store; auto.
  - done.
  - done.
  - intros source_path root_path file s Hs Hex Hr.
    destruct (backup_file_index s0 source_path root_path file s Hs) as [E|(ci & Hci & E)];
      rewrite E; [|apply at_rest_store; auto].
    set (filepath := child root_path file).
    set (dest_file_path := dest_file_path_of source_path dest_path filepath).
    destruct (skip_unchanged fs config (backup_index s) filepath config_name) eqn:Hsk;
      [by left|].
    destruct (copy_ok fs filepath dest_file_path) eqn:Hcp;
      [|right; intros d; by rewrite (copy_ok_stable filepath d dest_file_path)].
    exfalso.
    destruct (fs_mkdir_ok fs (str_of_path (path_parent dest_file_path))) eqn:Hmk;
      [|by rewrite backup_file_mkdir_fails in Hr].
    destruct Hs as (new & errs & ci0 & ci & _ & _ & _ & _ & _ & _ & _ & _ & H1 & _).
    destruct (backup_file_copies fs clk config config_name source_path dest_path
                root_path file s ci Hex Hsk Hmk Hcp H1) as (s' & Hs' & _ & Hidx & _).
    rewrite Hs' in E. simpl in E. rewrite Hidx in E.
    assert (Hl : backup_index s !! config_name
                 = Some (<[str_of_path filepath := get_file_info fs filepath]> ci)).
    { rewrite <- E. apply lookup_insert_eq. }
    rewrite H1 in Hl. injection Hl as Hl.
    unfold skip_unchanged in Hsk. rewrite incremental_on in Hsk. simpl in Hsk.
    apply negb_false_iff in Hsk.
    rewrite (should_backup_file_fresh fs config_name (backup_index s) ci filepath H1) in Hsk;
      [done|]. rewrite Hl. apply lookup_insert_eq.
Qed.

(** Loops over files that are all at rest change neither index, copies,
    counter nor configurations. *)
Lemma run_loops_idle s0 :
  dest_path = snapshot_path config config_name clk ->
  (forall source_path filepath,
     visited fs config source_path filepath ->
     at_rest fs config config_name (backup_index s0) filepath) ->
  let s' := (run_loops fs clk config config_name s0).2 in
  backup_index s' = backup_index s0 /\ copies s' = copies s0
  /\ files_backed_up s' = files_backed_up s0 /\ configs s' = configs s0.
Proof.
  intros Hdp Hrest s'. subst s'. unfold run_loops. rewrite <- Hdp.
  set (J := fun s => backup_index s = backup_index s0 /\ copies s = copies s0
                     /\ files_backed_up s = files_backed_up s0 /\ configs s = configs s0).
  apply (for_each_invariant J); [|by unfold J].
  intros source_dir s Hsd Hs. unfold backup_source.
  destruct (expanduser fs (Path_of source_dir)) as [source_path|] eqn:Hsp; [|done].
  destruct (fs_tree fs (str_of_path source_path)) as [t|] eqn:Ht; [|done].
  unfold log. rewrite bind_modify.
  apply (for_each_invariant J); [|done].
  intros [[root_path dirs] files] s1 Hstep Hs1. unfold backup_dir.
  destruct (should_exclude root_path (exclude_patterns config)) eqn:Hroot; [done|].
  apply (for_each_invariant J); [|done].
  intros file s2 Hfile (Hi & Hc & Hn & Hcf).
  destruct (backup_file_idle source_path root_path file s2) as (Hi' & Hc' & Hn' & Hcf').
  - destruct (should_exclude (child root_path file) (exclude_patterns config)) eqn:Hex;
      [by left|right].
    rewrite Hi. apply (Hrest source_path).
    exists source_dir, t, root_path, dirs, files, file. by split_and!.
  - unfold J. by rewrite Hi', Hc', Hn', Hcf'.
Qed.

End rerun.

Lemma prepared_present config_name (idx : index) ci :
  idx !! config_name = Some ci -> prepared config_name idx = idx.
Proof. unfold prepared. by intros ->. Qed.

(** C2. Two runs of a backup set in incremental mode, one after the other
    on the same file system, with nothing failing on the destination side
    and the outcome of copying a file not depending on the snapshot: both
    return [True], the second makes no copy, its counter of files is zero,
    and it leaves the change index as the first run left it. *)
Theorem rerun_copies_nothing (fs : filesystem) (clk1 clk2 : clock) (config_name : string)
    (config : BackupConfig) (s : state) :
  let r1 := create_backup fs clk1 config_name s in
  let r2 := create_backup fs clk2 config_name r1.2 in
  configs s !! config_name = Some config ->
  incremental config = true ->
  copy_outcome_stable fs ->
  destination_sound fs clk1 config config_name s ->
  destination_sound fs clk2 config config_name r1.2 ->
  r1.1 = Ok true
  /\ r2.1 = Ok true
  /\ new_copies r1.2 r2.2 = []
  /\ files_backed_up r2.2 = 0
  /\ backup_index r2.2 = backup_index r1.2.
Proof.
  intros r1 r2 Hc Hinc Hstable Hsound1 Hsound2. subst r2 r1.
  destruct (create_backup_sound fs clk1 config_name config s Hc Hsound1)
    as (s1 & s2 & H1 & H2 & H3 & H4 & H5 & Hinv0 & Hinv & Hloops & Hv & Hr).
  pose proof (run_loops_at_rest fs clk1 config config_name _ Hinc Hstable s1 eq_refl Hinv0)
    as Hrest.
  rewrite Hloops in Hrest. simpl in Hrest. specialize (Hrest eq_refl).
  destruct Hv as (Hvc & Hvi & _).
  destruct Hinv as (new & errs & ci0 & ci & Hcf & _ & _ & _ & _ & _ & _ & _ & Hci & _).
  set (s' := (create_backup fs clk1 config_name s).2) in *.
  assert (Hc' : configs s' !! config_name = Some config) by by rewrite Hvc, Hcf, H1.
  destruct (create_backup_sound fs clk2 config_name config s' Hc' Hsound2)
    as (t1 & t2 & T1 & T2 & T3 & T4 & T5 & _ & _ & Tloops & Tv & Tr).
  assert (Ti : backup_index t1 = backup_index s2).
  { rewrite T2, Hvi. by apply (prepared_present config_name _ ci). }
  destruct (run_loops_idle fs clk2 config config_name _ t1 eq_refl)
    as (Ui & Uc & Un & _).
  { intros source_path filepath Hvis. rewrite Ti. by apply (Hrest source_path). }
  rewrite Tloops in Ui, Uc, Un. simpl in Ui, Uc, Un.
  destruct Tv as (_ & Vi & Vc & _ & Vn).
  split_and!; try done.
  - unfold new_copies. rewrite Vc, Uc, T3. apply drop_all.
  - by rewrite Vn, Un.
  - by rewrite Vi, Ui, Ti.
Qed.

Lemma rerun_copies_nothing_witness :
  (create_backup fs_docs clk0 "docs" st_docs).1 = Ok true
  /\ (create_backup fs_docs {| strftime := "20240101_000001"; time := 1001 |} "docs"
        (create_backup fs_docs clk0 "docs" st_docs).2).1 = Ok true
  /\ new_copies (create_backup fs_docs clk0 "docs" st_docs).2
       (create_backup fs_docs {| strftime := "20240101_000001"; time := 1001 |} "docs"
          (create_backup fs_docs clk0 "docs" st_docs).2).2 = []
  /\ files_backed_up
       (create_backup fs_docs {| strftime := "20240101_000001"; time := 1001 |} "docs"
          (create_backup fs_docs clk0 "docs" st_docs).2).2 = 0
  /\ backup_index
       (create_backup fs_docs {| strftime := "20240101_000001"; time := 1001 |} "docs"
          (create_backup fs_docs clk0 "docs" st_docs).2).2
     = backup_index (create_backup fs_docs clk0 "docs" st_docs).2.
Proof.
  apply (rerun_copies_nothing fs_docs clk0 {| strftime := "20240101_000001"; time := 1001 |}
           "docs" cfg_docs st_docs).
  - reflexivity.
  - reflexivity.
  - intros src dst dst'. reflexivity.
  - apply destination_sound_docs.
  - split_and!.
    + vm_compute. reflexivity.
    + intros d. reflexivity.
    + intros source_dir ->%list_elem_of_singleton. by eexists.
    + reflexivity.
Defined.

(** ** A directory that cannot be made *)

Section directories.

Context (fs : filesystem) (clk : clock) (config : BackupConfig) (config_name : string).
Context (dest_path : Path) (s0 : state).

(** A copy made stays in the list of copies. *)
Lemma copied_stable p source_path root_path file s :
  run_inv fs config config_name dest_path s0 s ->
  p ∈ (new_copies s0 s).*1 ->
  p ∈ (new_copies s0
         (backup_file fs clk config config_name source_path dest_path root_path file s).2).*1.
Proof.
  intros Hinv Hp.
  destruct (run_inv_lengths fs config config_name dest_path s0 s Hinv) as [Hlc _].
  destruct (backup_file_step fs clk config config_name dest_path s0
              source_path root_path file s Hinv)
    as [[-> _]|[->|[(_ & Hc & _)|(_ & _ & Hc)]]]; try done;
    unfold new_copies in *; rewrite Hc; [done|].
  rewrite drop_app_le by done. rewrite fmap_app. apply elem_of_app. by left.
Qed.

(** After loops that return, the directory for the copy of every visited
    file that was due could be made, unless the file had been copied
    already when the loops came to it. The exception of a [mkdir] that
    fails is raised before the [try] and ends the loops. *)
Lemma run_loops_made_directories :
  dest_path = snapshot_path config config_name clk ->
  run_inv fs config config_name dest_path s0 s0 ->
  (run_loops fs clk config config_name s0).1 = Ok tt ->
  forall source_path filepath,
    visited fs config source_path filepath ->
    skip_unchanged fs config (backup_index s0) filepath config_name = false ->
    fs_mkdir_ok fs
      (str_of_path (path_parent (dest_file_path_of source_path dest_path filepath))) = true
    \/ str_of_path filepath ∈ (new_copies s0 (run_loops fs clk config config_name s0).2).*1.
Proof.
  intros Hdp Hinv Hok. unfold run_loops in *. rewrite <- Hdp in *.
  refine (backup_sources_establish fs clk config config_name dest_path s0
            (fun sp fp s =>
               skip_unchanged fs config (backup_index s0) fp config_name = false ->
               fs_mkdir_ok fs (str_of_path (path_parent (dest_file_path_of sp dest_path fp)))
                 = true
               \/ str_of_path fp ∈ (new_copies s0 s).*1)
            _ _ _ _ s0 Hinv Hok).
  - intros sp fp source_path root_path file s Hs Hfp Hdue.
    destruct (Hfp Hdue) as [?|Hin]; [by left|right]. by apply copied_stable.
  - intros sp fp p s Hfp Hdue. by apply Hfp.
  - intros sp fp p s Hfp Hdue. by apply Hfp.
  - intros source_path root_path file s Hs Hex Hr Hdue.
    set (filepath := child root_path file) in *.
    destruct (fs_mkdir_ok fs (str_of_path
                (path_parent (dest_file_path_of source_path dest_path filepath)))) eqn:Hmk;
      [by left|right].
    destruct (skip_unchanged fs config (backup_index s) filepath config_name) eqn:Hsk;
      [|by rewrite backup_file_mkdir_fails in Hr].
    rewrite backup_file_skip by auto. simpl.
    destruct Hs as (new & errs & ci0 & ci & _ & Hcp & _ & _ & _ & _ & _ & H0 & H1 & Hold & _).
    rewrite (copies_new_copies s0 s _ Hcp).
    destruct (decide (str_of_path filepath
                      ∈ map (fun v : Path * Path => str_of_path v.2) new)) as [Hin|Hin].
    + apply list_elem_of_fmap in Hin as (v & Hv & Hvin). apply list_elem_of_fmap.
      exists (copy_of dest_path v). split; [done|]. apply list_elem_of_fmap. by exists v.
    + exfalso.
      rewrite (skip_unchanged_ext fs config config_name (backup_index s0) (backup_index s)
                 filepath filepath eq_refl) in Hdue; [congruence|].
      rewrite H0, H1. simpl. symmetry. by apply Hold.
Qed.

End directories.

(** A run that returns has made the directory for the copy of every
    visited file that was due, or else had copied the file already when it
    came to it. So a single directory that cannot be made, for a file not
    otherwise copied, keeps the run from returning. *)
Lemma unmade_directory_ends_run (fs : filesystem) (clk : clock) (config_name : string)
    (config : BackupConfig) (s : state) (source_path filepath : Path) (b : bool) :
  let r := create_backup fs clk config_name s in
  let dest_path := snapshot_path config config_name clk in
  configs s !! config_name = Some config ->
  visited fs config source_path filepath ->
  skip_unchanged fs config (backup_index s) filepath config_name = false ->
  fs_mkdir_ok fs
    (str_of_path (path_parent (dest_file_path_of source_path dest_path filepath))) = false ->
  r.1 = Ok b ->
  str_of_path filepath ∈ (new_copies s r.2).*1.
Proof.
  intros r dest_path Hc Hvis Hdue Hmk Hb. subst r.
  destruct (create_backup_cases fs clk config_name config s Hc)
    as [[_ [e He]]|(s1 & s2 & H1 & H2 & H3 & H4 & H5 & Hinv & Hv & Hl)]; [congruence|].
  destruct Hl as [[Hloops _]|(e & _ & He)]; [|congruence].
  assert (Hinv0 : run_inv fs config config_name dest_path s1 s1).
  { unfold prepared in H2. destruct (backup_index s !! config_name) as [ci|] eqn:E.
    - apply (run_inv_refl _ _ _ _ _ ci). by rewrite H2.
    - apply (run_inv_refl _ _ _ _ _ ∅). by rewrite H2, lookup_insert_eq. }
  pose proof (run_loops_made_directories fs clk config config_name dest_path s1 eq_refl Hinv0)
    as Hmade.
  rewrite Hloops in Hmade. simpl in Hmade.
  destruct (Hmade eq_refl source_path filepath Hvis) as [Hm|Hin].
  - by rewrite H2, skip_unchanged_prepared.
  - fold dest_path in Hm. congruence.
  - destruct Hv as (_ & _ & Hcp & _). unfold new_copies in *. by rewrite Hcp, <- H3.
Qed.

(** C5 at a failing input. In [fs_blocked] every file can be copied, but
    the directory for the copy of [/src/sub/c.txt] cannot be made: the
    [mkdir] before the [try] raises, and the run ends with that exception
    instead of returning. One file has been copied; the file
    [/src/later/d.txt], which was due, has not; no failure has been logged;
    the index has not been saved. *)
Theorem mkdir_failure_aborts_run :
  let r := create_backup fs_blocked clk0 "docs" st_docs in
  copy_ok fs_blocked (Path_of "/src/sub/c.txt")
    (Path_of "/bak/docs_20240101_000000/src/sub/c.txt") = true
  /\ r.1 = Raise PermissionError
  /\ new_copies st_docs r.2 = [("/src/a.txt", "/bak/docs_20240101_000000/src/a.txt")]
  /\ logger r.2 = [Info_start "docs" "/bak/docs_20240101_000000"; Info_source "/src"]
  /\ index_file r.2 = None.
Proof. split_and!; reflexivity. Qed.

(** * Further properties *)

(** ** The pattern test is the substring test *)

Lemma startswith_iff s p : PyStr.startswith s p = true <-> exists b, s = p ++ b.
Proof.
  revert s. induction p as [|c p' IH]; intros s; simpl.
  - split; [by exists s|done].
  - destruct s as [|d s']; [split; [done|by intros [b ?]]|].
    destruct (Ascii.eqb c d) eqn:E.
    + apply Ascii.eqb_eq in E as ->. rewrite IH. split.
      * intros [b ->]. by exists b.
      * intros [b [= ->]]. by exists b.
    + apply Ascii.eqb_neq in E. split; [done|]. intros [b [= ? ?]]. congruence.
Qed.

Lemma contains_iff s p : PyStr.contains s p = true <-> exists a b, s = a ++ p ++ b.
Proof.
  induction s as [|c s' IH]; simpl.
  - rewrite orb_false_r, startswith_iff. split.
    + intros [b ->]. by exists "", b.
    + intros (a & b & H). destruct a; [by exists b|done].
  - rewrite orb_true_iff, IH. split.
    + intros [[b E]%startswith_iff|(a & b & ->)].
      * exists "", b. by rewrite E.
      * by exists (String c a), b.
    + intros (a & b & E). destruct a as [|d a'].
      * left. apply startswith_iff. by exists b.
      * right. injection E as -> ->. by exists a', b.
Qed.

(** X2. A path is excluded exactly when the pattern list is present and
    one of its patterns occurs in the printed path as a contiguous run of
    characters, anywhere; with no list, or the empty list, nothing is
    excluded. *)
Theorem excluded_iff_substring (path : Path) (exclude_patterns : option (list string)) :
  should_exclude path None = false
  /\ should_exclude path (Some []) = false
  /\ (should_exclude path exclude_patterns = true <->
      exists patterns pattern before after,
        exclude_patterns = Some patterns
        /\ pattern ∈ patterns
        /\ str_of_path path = before ++ pattern ++ after).
Proof.
  split_and!; try done. rewrite should_exclude_true. split.
  - intros (l & pattern & -> & Hin & (a & b & E)%contains_iff). by exists l, pattern, a, b.
  - intros (l & pattern & a & b & -> & Hin & E). exists l, pattern. split_and!; try done.
    apply contains_iff. by exists a, b.
Qed.

(** ** What makes a recorded file due again *)

Lemma get_file_info_mtime fs filepath :
  get_file_info fs filepath !! "mtime"
  = match fs_stat fs (str_of_path filepath) with
    | Some st => Some (VNum (st_mtime st))
    | None => None
    end.
Proof.
  unfold get_file_info. destruct (fs_stat fs _); [|done].
  rewrite lookup_insert_ne by done. by rewrite lookup_insert_eq.
Qed.

(** X3. For a file whose record in the index was taken in the file system
    [fs], and that can be stat'ed then and now, detection in the file system
    [fs'] says "changed" exactly when the modification time differs or the
    fingerprint differs: touching the file is enough, a change of content is
    enough, and nothing else is looked at. *)
Theorem due_again_iff_touched_or_modified (fs fs' : filesystem) (idx : index)
    (config_name : string) (filepath : Path) (config_index : gmap string file_info)
    (st st' : stat_result) :
  idx !! config_name = Some config_index ->
  config_index !! str_of_path filepath = Some (get_file_info fs filepath) ->
  fs_stat fs (str_of_path filepath) = Some st ->
  fs_stat fs' (str_of_path filepath) = Some st' ->
  should_backup_file fs' idx filepath config_name = true
  <-> st_mtime st' <> st_mtime st
      \/ calculate_file_hash fs' filepath <> calculate_file_hash fs filepath.
Proof.
  intros Hci Hrec Hst Hst'.
  rewrite (should_backup_file_known fs' idx filepath config_name (get_file_info fs filepath))
    by (by rewrite Hci).
  rewrite orb_true_iff, !py_ne_true, !get_file_info_hash, !get_file_info_mtime, Hst, Hst'.
  split.
  - intros [H|H]; [right|left]; intros E; apply H; by rewrite E.
  - intros [H|H]; [right|left]; intros [= E]; by apply H.
Qed.

Lemma due_again_iff_touched_or_modified_witness :
  should_backup_file fs_touched idx_a_recorded (Path_of "/src/a.txt") "docs" = true.
Proof.
  apply (due_again_iff_touched_or_modified fs_docs fs_touched idx_a_recorded "docs"
           (Path_of "/src/a.txt")
           {[ "/src/a.txt" := get_file_info fs_docs (Path_of "/src/a.txt") ]}
           {| st_size := 10; st_mtime := 100 |} {| st_size := 10; st_mtime := 101 |});
    try reflexivity.
  left. simpl. lia.
Defined.

(** ** Full mode and first runs *)

Lemma skip_unchanged_full fs config idx filepath config_name :
  incremental config = false \/ index_lookup idx config_name (str_of_path filepath) = None ->
  skip_unchanged fs config idx filepath config_name = false.
Proof.
  unfold skip_unchanged. intros [->|H]; [done|].
  rewrite should_backup_file_new; [apply andb_false_r|].
  unfold index_lookup in H. destruct (idx !! config_name); [done|apply lookup_empty].
Qed.

(** X4. With incremental mode off, or for a file that has no record in the
    index yet, whatever else the index holds: a visited file whose copy
    succeeds is copied by a run on a sound destination, and after the run
    the index holds the record just computed for it. *)
Theorem due_file_is_copied (fs : filesystem) (clk : clock) (config_name : string)
    (config : BackupConfig) (s : state) (source_path filepath : Path) :
  let r := create_backup fs clk config_name s in
  configs s !! config_name = Some config ->
  destination_sound fs clk config config_name s ->
  visited fs config source_path filepath ->
  incremental config = false
  \/ index_lookup (backup_index s) config_name (str_of_path filepath) = None ->
  (forall d, copy_ok fs filepath d = true) ->
  r.1 = Ok true
  /\ str_of_path filepath ∈ (new_copies s r.2).*1
  /\ index_lookup (backup_index r.2) config_name (str_of_path filepath)
     = Some (get_file_info fs filepath).
Proof.
  intros r Hc Hsound Hvis Hdue Hgood. subst r.
  set (dest_path := snapshot_path config config_name clk).
  destruct (create_backup_sound fs clk config_name config s Hc Hsound)
    as (s1 & s2 & H1 & H2 & H3 & H4 & H5 & Hinv0 & Hinv & Hloops & Hv & Hr).
  fold dest_path in Hinv0, Hinv.
  pose proof (run_loops_settle fs clk config config_name dest_path s1 s1 eq_refl eq_refl Hinv0)
    as Hsettle.
  rewrite Hloops in Hsettle. simpl in Hsettle.
  specialize (Hsettle eq_refl source_path filepath Hvis).
  destruct Hv as (_ & Hvi & Hcp & _).
  destruct Hinv as (new & errs & ci0 & ci & _ & Hnewc & Hnewe & _ & _ & Herrs & _ & _ & Hci
                    & _ & Hfresh).
  rewrite (copies_new_copies s1 s2 _ Hnewc), (copy_errors_new s1 s2 _ Hnewe) in Hsettle.
  assert (Hnc : new_copies s (create_backup fs clk config_name s).2
                = map (copy_of dest_path) new).
  { apply copies_new_copies. by rewrite Hcp, Hnewc, H3. }
  destruct Hsettle as [Hin|Hin].
  - rewrite H2, skip_unchanged_prepared. by apply skip_unchanged_full.
  - split_and!; [done|by rewrite Hnc|].
    apply list_elem_of_fmap in Hin as (c & Hfp & (v & -> & Hv)%list_elem_of_fmap).
    simpl in Hfp. unfold index_lookup. rewrite Hvi, Hci, Hfp, (Hfresh v Hv).
    f_equal. symmetry. by apply get_file_info_ext.
  - exfalso. apply list_elem_of_fmap in Hin as (v & Hfp & Hv).
    rewrite Forall_forall in Herrs. destruct (Herrs v Hv) as (_ & _ & Hbad).
    by rewrite <- (copy_ok_ext fs filepath v.2 _ Hfp), Hgood in Hbad.
Qed.

Lemma visited_full_a : visited fs_docs cfg_full (Path_of "/src") (Path_of "/src/a.txt").
Proof.
  exists "/src", (Dir ["a.txt"; "b.txt"]
                      [("cache", Dir ["tmp.bin"] [("deep", Dir ["x.bin"] [])]);
                       ("sub", Dir ["c.txt"] [])]),
    (Path_of "/src"), ["cache"; "sub"], ["a.txt"; "b.txt"], "a.txt".
  split_and!; try done; by left.
Qed.

Lemma due_file_is_copied_witness :
  should_backup_file fs_docs (backup_index st_full) (Path_of "/src/a.txt") "docs" = false
  /\ (create_backup fs_docs clk0 "docs" st_full).1 = Ok true
  /\ "/src/a.txt" ∈ (new_copies st_full (create_backup fs_docs clk0 "docs" st_full).2).*1.
Proof.
  split; [reflexivity|].
  destruct (due_file_is_copied fs_docs clk0 "docs" cfg_full st_full (Path_of "/src")
              (Path_of "/src/a.txt")) as (Hr & Hin & _).
  - reflexivity.
  - split_and!; try done. intros source_dir ->%list_elem_of_singleton. by eexists.
  - apply visited_full_a.
  - by left.
  - intros d. reflexivity.
  - by split.
Defined.

(** ** The order of pruning *)

Lemma filter_insert_by_mtime t x l :
  List.filter (fun y => entry_mtime y.2 =? t)%Z (insert_by_mtime x l)
  = List.filter (fun y => entry_mtime y.2 =? t)%Z (x :: l).
Proof.
  induction l as [|y l' IH]; [done|]. simpl in *.
  destruct (entry_mtime x.2 <? entry_mtime y.2)%Z eqn:Hlt; [|done].
  simpl. rewrite IH. apply Z.ltb_lt in Hlt.
  destruct (entry_mtime x.2 =? t)%Z eqn:Hx, (entry_mtime y.2 =? t)%Z eqn:Hy; try done.
  apply Z.eqb_eq in Hx, Hy. lia.
Qed.

(** X5. The order in which pruning considers the snapshots: the listed
    entries, each once, newest first, and entries with the same
    modification time in the order of the listing (the sort is stable, also
    under [reverse=True]). *)
Theorem pruning_order_is_stable (l : list (string * entry)) :
  sort_by_mtime_desc l ≡ₚ l
  /\ StronglySorted not_older (sort_by_mtime_desc l)
  /\ forall t, List.filter (fun y => entry_mtime y.2 =? t)%Z (sort_by_mtime_desc l)
               = List.filter (fun y => entry_mtime y.2 =? t)%Z l.
Proof.
  split_and!; [apply sort_by_mtime_desc_perm|apply sort_by_mtime_desc_sorted|].
  intros t. induction l as [|x l' IH]; [done|].
  change (sort_by_mtime_desc (x :: l')) with (insert_by_mtime x (sort_by_mtime_desc l')).
  rewrite filter_insert_by_mtime. simpl. by rewrite IH.
Qed.

(** ** Removals that fail *)

Section failing_removals.

Context (fs : filesystem).






End failing_removals.



(** ** Archives of backup sets with a dot in their name *)

Section dotted_names.








End dotted_names.



(** ** Where a copy goes *)

Section mirroring.

Lemma tree_ind_nested (P : tree -> Prop) :
  (forall files subdirs, Forall (fun x => P x.2) subdirs -> P (Dir files subdirs)) ->
  forall t, P t.
Proof.
  intros H. fix F 1. intros [files subdirs]. apply H.
  induction subdirs as [|[d t'] l IHl]; constructor; [apply F|apply IHl].
Qed.

Lemma walk_below t : forall top step,
  step ∈ walk top t -> exists names, step.1.1 = descend top names.
Proof.
  induction t as [files subdirs IH] using tree_ind_nested.
  intros top step Hin. simpl in Hin.
  apply elem_of_cons in Hin as [->|Hin]; [by exists []|].
  induction IH as [|[d t'] l Hd _ IHl]; [by apply elem_of_nil in Hin|].
  apply elem_of_app in Hin as [Hin|Hin]; [|by apply IHl].
  destruct (Hd _ _ Hin) as [names ->]. by exists (d :: names).
Qed.

Lemma relative_to_descend d names :
  relative_to (descend d names) d = {| anchor := ""; parts := names |}.
Proof.
  unfold relative_to. rewrite descend_parts. simpl.
  by rewrite drop_app_length.
Qed.

Lemma joinpath_relative d names :
  joinpath d {| anchor := ""; parts := names |} = descend d names.
Proof.
  by rewrite descend_parts.
Qed.

Lemma dest_file_path_of_descend source_path dest_path names :
  dest_file_path_of source_path dest_path (descend source_path names)
  = descend (joinpath dest_path (Path_of (path_name source_path))) names.
Proof.
  unfold dest_file_path_of. by rewrite relative_to_descend, joinpath_relative.
Qed.

End mirroring.

(** X8. Every file that the loops of [create_backup] reach lies below its
    source directory, at [source_path / n1 / ... / nk / file], and the
    place computed for its copy is the same relative path below
    [dest_path / source_path.name]. *)
Theorem copy_mirrors_relative_path (fs : filesystem) (config : BackupConfig)
    (source_path dest_path filepath : Path) :
  visited fs config source_path filepath ->
  exists names file,
    filepath = descend source_path (names ++ [file])
    /\ dest_file_path_of source_path dest_path filepath
       = descend (joinpath dest_path (Path_of (path_name source_path))) (names ++ [file]).
Proof.
  intros (source_dir & t & root_path & dirs & files & file & _ & _ & _ & Hw & _ & _ & -> & _).
  destruct (walk_below _ _ _ Hw) as [names Hn]. simpl in Hn. subst root_path.
  exists names, file.
  assert (E : child (descend source_path names) file = descend source_path (names ++ [file])).
  { unfold descend. by rewrite foldl_app. }
  rewrite E. split; [done|apply dest_file_path_of_descend].
Qed.

Lemma visited_docs_c : visited fs_docs cfg_docs (Path_of "/src") (Path_of "/src/sub/c.txt").
Proof.
  exists "/src", (Dir ["a.txt"; "b.txt"]
                      [("cache", Dir ["tmp.bin"] [("deep", Dir ["x.bin"] [])]);
                       ("sub", Dir ["c.txt"] [])]),
    (Path_of "/src/sub"), [], ["c.txt"], "c.txt".
  split_and!; try done.
  - by left.
  - do 3 right. by left.
  - by left.
Qed.

Lemma copy_mirrors_relative_path_witness :
  exists names file,
    Path_of "/src/sub/c.txt" = descend (Path_of "/src") (names ++ [file])
    /\ dest_file_path_of (Path_of "/src") (Path_of "/bak/docs_20240101_000000")
         (Path_of "/src/sub/c.txt")
       = descend (joinpath (Path_of "/bak/docs_20240101_000000")
                    (Path_of (path_name (Path_of "/src")))) (names ++ [file]).
Proof.
  exact (copy_mirrors_relative_path fs_docs cfg_docs (Path_of "/src")
           (Path_of "/bak/docs_20240101_000000") (Path_of "/src/sub/c.txt") visited_docs_c).
Defined.

(** X9. The source directory enters the place of a copy only through its
    last component: two source directories with the same name send the
    files at the same relative path to one and the same destination path.
    In the run of [cfg_twins], [/a/data/x.txt] and [/b/data/x.txt] are both
    copied to [data/x.txt] of the snapshot, the second over the first. *)
Theorem same_named_sources_share_destination (source_path source_path' dest_path : Path)
    (names : list string) :
  path_name source_path = path_name source_path' ->
  dest_file_path_of source_path dest_path (descend source_path names)
  = dest_file_path_of source_path' dest_path (descend source_path' names)
  /\ new_copies st_twins (create_backup fs_twins clk0 "docs" st_twins).2
     = [("/a/data/x.txt", "/bak/docs_20240101_000000/data/x.txt");
        ("/b/data/x.txt", "/bak/docs_20240101_000000/data/x.txt")].
Proof.
  intros Hn. split; [|reflexivity].
  by rewrite !dest_file_path_of_descend, Hn.
Qed.

Lemma same_named_sources_share_destination_witness :
  dest_file_path_of (Path_of "/a/data") (Path_of "/bak/s")
    (descend (Path_of "/a/data") ["sub"; "x.txt"])
  = dest_file_path_of (Path_of "/b/data") (Path_of "/bak/s")
      (descend (Path_of "/b/data") ["sub"; "x.txt"])
  /\ new_copies st_twins (create_backup fs_twins clk0 "docs" st_twins).2
     = [("/a/data/x.txt", "/bak/docs_20240101_000000/data/x.txt");
        ("/b/data/x.txt", "/bak/docs_20240101_000000/data/x.txt")].
Proof.
  apply (same_named_sources_share_destination (Path_of "/a/data") (Path_of "/b/data")).
  reflexivity.
Defined.

(** ** How a run ends *)

Section run_end.

Lemma bind_returns {A B} (m : M A) (k : A -> M B) s b s' :
  bind m k s = (Ok b, s') -> exists a s1, m s = (Ok a, s1) /\ k a s1 = (Ok b, s').
Proof.
  unfold bind. destruct (m s) as [[a|e] s1]; [|done]. intros H. by exists a, s1.
Qed.

Lemma save_backup_index_returns fs s s' :
  save_backup_index fs s = (Ok tt, s') ->
  fs_save_ok fs = true
  /\ index_file s' = Some (backup_index s')
  /\ effects s' = (effects s ++ [OpWriteIndex])%list.
Proof.
  unfold save_backup_index. destruct (fs_save_ok fs); [|done].
  rewrite bind_modify. intros [= <-]. done.
Qed.

End run_end.

(** X10. A run returns [False] exactly for an unknown backup set, and has
    then done nothing but log the error. A run that returns [True] has
    written the index file as its last operation, with the index it holds
    in memory, and its last message reports its counters. *)
Theorem run_result (fs : filesystem) (clk : clock) (config_name : string) (s : state) :
  let r := create_backup fs clk config_name s in
  (r.1 = Ok false <-> configs s !! config_name = None)
  /\ (r.1 = Ok false -> r.2 = add_log (Error_config_not_found config_name) s)
  /\ (r.1 = Ok true ->
        fs_save_ok fs = true
        /\ index_file r.2 = Some (backup_index r.2)
        /\ last (effects r.2) = Some OpWriteIndex
        /\ last (logger r.2) = Some (Info_done (files_backed_up r.2) (total_size r.2))).
Proof.
  intros r. subst r.
  destruct (configs s !! config_name) as [config|] eqn:Hc.
  - assert (Hend : forall b s', create_backup fs clk config_name s = (Ok b, s') ->
      b = true /\ fs_save_ok fs = true /\ index_file s' = Some (backup_index s')
      /\ last (effects s') = Some OpWriteIndex
      /\ last (logger s') = Some (Info_done (files_backed_up s') (total_size s'))).
    { intros b s'. unfold create_backup. rewrite bind_gets, Hc.
      intros (_ & s1 & _ & H)%bind_returns. unfold log in H.
      rewrite !bind_modify in H.
      apply bind_returns in H as (_ & s2 & _ & H).
      apply bind_returns in H as (_ & s3 & _ & H).
      apply bind_returns in H as (_ & s4 & _ & H).
      apply bind_returns in H as (_ & s5 & _ & H).
      apply bind_returns in H as ([] & s6 & Hsave & H).
      apply save_backup_index_returns in Hsave as (Hok & Hfile & Heff).
      unfold bind, gets, modify, ret in H. simpl in H. injection H as <- <-.
      split_and!; try done.
      - simpl. rewrite Heff. apply last_snoc.
      - simpl. apply last_snoc. }
    destruct (create_backup fs clk config_name s) as [[b|e] s'] eqn:E; simpl.
    + destruct (Hend b s' eq_refl) as (-> & H). split_and!; [split; done|done|done].
    + split_and!; [split; done|done|done].
  - rewrite (create_backup_not_found _ _ _ _ Hc). simpl. split_and!; done.
Qed.

Lemma run_result_witness :
  (create_backup fs_docs clk0 "docs" st_docs).1 = Ok true
  /\ index_file (create_backup fs_docs clk0 "docs" st_docs).2
     = Some (backup_index (create_backup fs_docs clk0 "docs" st_docs).2)
  /\ (create_backup fs_docs clk0 "photos" st_docs).1 = Ok false
  /\ (create_backup fs_docs clk0 "photos" st_docs).2
     = add_log (Error_config_not_found "photos") st_docs.
Proof.
  destruct (run_result fs_docs clk0 "docs" st_docs) as (_ & _ & Ht).
  destruct (run_result fs_docs clk0 "photos" st_docs) as (Hiff & Hf & _).
  assert (H1 : (create_backup fs_docs clk0 "docs" st_docs).1 = Ok true) by reflexivity.
  assert (H2 : (create_backup fs_docs clk0 "photos" st_docs).1 = Ok false).
  { apply Hiff. reflexivity. }
  destruct (Ht H1) as (_ & Hfile & _).
  exact (conj H1 (conj Hfile (conj H2 (Hf H2)))).
Defined.

(** ** The archiver *)

Section archiver.



End archiver.



(** ** Scheduler registration *)

Section cron.

Lemma cron_line_longer_name env config config' config_name ext :
  schedule config' = schedule config ->
  cron_line env config' (config_name ++ ext) = cron_line env config config_name ++ ext.
Proof. intros H. unfold cron_line. rewrite H. by rewrite !append_assoc. Qed.

Lemma contains_middle a p b : PyStr.contains (a ++ p ++ b) p = true.
Proof. apply contains_iff. by exists a, b. Qed.

End cron.



(** X13. The test for an installed job is a substring test on the whole
    table: when the table holds the line of a backup set with the same
    schedule whose name extends [config_name], [install_cron] takes the
    job of [config_name] for present, writes nothing and returns [True]. *)
Theorem install_cron_shadowed (env : cron_env) (cfgs : gmap string BackupConfig)
    (config_name ext : string) (config config' : BackupConfig) (before after : string) :
  cfgs !! config_name = Some config ->
  schedule config' = schedule config ->
  crontab_list env
  = Some (0, before ++ cron_line env config' (config_name ++ ext) ++ after) ->
  install_cron env cfgs config_name = mkCronOutcome true None (Cron_present config_name).
Proof.
  intros Hc Hs Hl. unfold install_cron. rewrite Hc, Hl. simpl.
  rewrite (cron_line_longer_name _ config) by done.
  by rewrite append_assoc, contains_middle.
Qed.

Lemma install_cron_shadowed_witness :
  let table := "0 2 * * * /usr/bin/python3 /opt/smartbackup.py backup docs_extra" ++ newline in
  cron_written (install_cron env0 cfgs_two "docs_extra") = Some table
  /\ install_cron (with_crontab env0 table) cfgs_two "docs"
     = mkCronOutcome true None (Cron_present "docs").
Proof.
  intros table. split; [reflexivity|].
  exact (install_cron_shadowed (with_crontab env0 table) cfgs_two "docs" "_extra"
           cfg_docs cfg_docs_extra "" newline eq_refl eq_refl eq_refl).
Defined.

(** ** Retention caps that are not positive *)



(** X15. With a negative retention cap [-k], pruning runs whenever the
    backup set has a snapshot, and sets out to remove the [k] oldest of
    them (all, if there are no more than [k]): [backups[-k:]]. *)
Theorem negative_cap_removes_oldest (fs : filesystem) (config : BackupConfig)
    (s : state) (l : gmap string entry) (k : nat) :
  let dest_dir := Path_of (destination config) in
  let sorted := sort_by_mtime_desc (backups_of config l) in
  dest_fs s !! str_of_path dest_dir = Some l ->
  max_backups config = - Z.of_nat k ->
  (0 < k)%nat ->
  cleanup_old_backups fs config s
  = for_each (drop (length sorted - k) sorted) (remove_backup fs dest_dir) s.
Proof.
  intros dest_dir sorted Hl Hm Hk.
  unfold cleanup_old_backups. rewrite bind_gets. fold dest_dir. rewrite Hl. fold sorted.
  rewrite Hm.
  destruct (Z.of_nat (length sorted) >? - Z.of_nat k) eqn:E.
  - unfold slice_from. rewrite (proj2 (Z.ltb_lt _ _)) by lia.
    f_equal. f_equal. lia.
  - rewrite Z.gtb_ltb in E. apply Z.ltb_ge in E. lia.
Qed.

Lemma negative_cap_removes_oldest_witness :
  let config :=
    {| name := "docs"; source_dirs := ["/src"]; destination := "/bak";
       schedule := "0 2 * * *"; compression := false; incremental := true;
       exclude_patterns := None; max_backups := -1 |} in
  let s := state_of ∅ ∅ {[ "/bak" := bak_listing ]} in
  cleanup_old_backups fs_docs config s
  = for_each [("docs_extra_20230101_000000", EDir 10 ∅)]
      (remove_backup fs_docs (Path_of "/bak")) s.
Proof.
  intros config s.
  etransitivity.
  - exact (negative_cap_removes_oldest fs_docs config s bak_listing 1 eq_refl eq_refl
             (le_n 1)).
  - reflexivity.
Defined.
